(** * hyde tagger plugin: tag graph, tag queries and tag archives

    A shallow embedding of [hyde/ext/plugins/tagger.py] and the properties
    of its tag graph construction, its filtered walkers and its archive
    generator.

    Python objects are modelled the way the interpreter keeps them: a [Tag]
    is its attribute dictionary, tags live in a store and are referred to by
    their position in it (object identity), dictionaries are finite maps and
    exceptions are the left summand of a result type.  A loop over a
    dictionary visits its entries in the order of [map_to_list], which like
    the order of a Python 2 dictionary is fixed by the keys and otherwise
    arbitrary. *)

From Stdlib Require Import Ascii String.
From stdpp Require Import gmap strings list fin_maps.

Local Open Scope string_scope.

(** ** Exceptions and the result monad *)

(** The three messages the plugin passes to [self.template.exception_class]:
    ["Cannot find the sorter: %s" % sorter],
    ["Invalid definition of tag: {!r} with relation: {!r}".format(tagname, relations)]
    and ["No Template specified in tagger configuration."].  The arguments
    of the format strings are kept as data. *)
Inductive message (R : Type) :=
| CannotFindSorter (sorter : option string)
| InvalidDefinitionOfTag (tagname : string) (relations : R)
| NoTemplateSpecified.
Arguments CannotFindSorter {R} sorter.
Arguments InvalidDefinitionOfTag {R} tagname relations.
Arguments NoTemplateSpecified {R}.

(** What a tag declaration carries next to the tag name: a list of relation
    names, or a dictionary from relation name to target tag name. *)
Inductive relations_decl :=
| RelList (l : list string)
| RelDict (d : gmap string string).

(** An entry of [resource.meta.tags]: a [str] ([type(tagname) is str]), or
    a structured declaration, given by the dictionary of its [to_dict()]. *)
Inductive tag_decl :=
| Plain (tagname : string)
| Structured (d : gmap string relations_decl).

Inductive exn :=
| TemplateException (msg : message relations_decl)
| NameError (name : string)
| AttributeError (attr : string)
| KeyError (key : string)
| TypeError (what : string).

Definition result (A : Type) : Type := exn + A.
Definition Ok {A} (a : A) : result A := inr a.
Definition Raise {A} (e : exn) : result A := inl e.

Definition bind {A B} (m : result A) (k : A → result B) : result B :=
  match m with
  | inl e => inl e
  | inr a => k a
  end.

Notation "x <- m ;; k" := (bind m (λ x, k))
  (at level 100, m at next level, right associativity).

(** ** Strings *)

(** [s.split(sep)] for a one-character separator: the pieces between the
    separators, empty pieces included; never the empty list. *)
Fixpoint split (sep : ascii) (s : string) : list string :=
  match s with
  | EmptyString => [EmptyString]
  | String c rest =>
      if Ascii.eqb c sep then EmptyString :: split sep rest
      else match split sep rest with
           | [] => [String c EmptyString]
           | w :: ws => String c w :: ws
           end
  end.

Definition plus : ascii := "+"%char.

(** ** Resources, configuration, site *)

(** Object identity of a [Tag]: its position in the tag store. *)
Abbreviation ref := nat.

(** A resource of the content tree.  [meta_tags] is [resource.meta.tags]
    ([None] when [attrgetter("meta.tags")] raises [AttributeError]);
    [res_tags] is the [tags] attribute the plugin adds ([None] while
    [hasattr(resource, 'tags')] is false). *)
Record Resource := mkResource {
  rid : nat;
  meta_tags : option (list tag_decl);
  res_tags : option (list ref)
}.

(** Values of the configuration tree, as loaded from YAML. *)
#[warnings="-register-all"]
Inductive yaml :=
| YScalar (s : string)
| YSeq (l : list yaml)
| YMap (l : list (string * yaml)).

(** One entry of [tagger.archives]; every key is optional. *)
Record ArchiveConfig := mkArchive {
  a_template : option string;
  a_source : option string;
  a_target : option string;
  a_extension : option string;
  a_meta : option (gmap string yaml)
}.

Record TaggerConfig := mkTagger {
  sorter : option string;
  tagger_tags : option (gmap string (gmap string yaml));
  archives : option (gmap string ArchiveConfig)
}.

Record Config := mkConfig { tagger : option TaggerConfig }.

(** [site.content] is seen through its walker attributes: the attribute
    name maps to the sequence of resources that calling it enumerates. *)
Record Site := mkSite {
  config : Config;
  content : gmap string (list Resource)
}.

(** ** Name resolution inside a module-level function *)

(** The names bound at module level in tagger.py: its imports, its class
    and its functions. *)
Definition module_globals : list string :=
  ["re"; "File"; "Folder"; "Expando"; "Plugin"; "Node"; "Resource";
   "add_method"; "add_property"; "pairwalk"; "namedtuple"; "datetime";
   "partial"; "ifilter"; "izip"; "tee"; "product"; "attrgetter";
   "Tag"; "get_tagger_sort_method"; "walk_resources_tagged_with";
   "TaggerPlugin"].

Definition resolve_name (locals : list string) (name : string) : result unit :=
  if bool_decide (name ∈ (locals ++ module_globals)%list) then Ok tt
  else Raise (NameError name).

(** ** get_tagger_sort_method *)

(** [attrgetter('tagger.sorter')(config)]; [None] stands for the
    [AttributeError]. *)
Definition attrgetter_tagger_sorter (c : Config) : option string :=
  tagger c ≫= sorter.

(** The walker is returned as the sequence it enumerates when called. *)
Definition get_tagger_sort_method (site : Site) : result (list Resource) :=
  let config := config site in
  let content := content site in
  let walker := "walk_resources" in
  let '(sorter, walker) :=
    match attrgetter_tagger_sorter config with
    | Some sorter => (Some sorter, walker ++ "_sorted_by_" ++ sorter)
    | None => (None, walker)
    end in
  match content !! walker with
  | Some walker => Ok walker
  | None =>
      _ <- resolve_name ["site"; "config"; "content"; "walker"; "sorter"] "self";;
      Raise (TemplateException (CannotFindSorter sorter))
  end.

(** ** walk_resources_tagged_with *)

(** [set(attrgetter("meta.tags")(resource))] as far as the subset test can
    see it: the query holds strings only, and a structured declaration
    never equals a string. *)
Definition plain_name (d : tag_decl) : option string :=
  match d with
  | Plain n => Some n
  | Structured _ => None
  end.

Definition taglist_set (taglist : list tag_decl) : gset string :=
  list_to_set (omap plain_name taglist).

Fixpoint walk_loop (tags : gset string) (walker : list Resource) : list Resource :=
  match walker with
  | [] => []
  | resource :: rest =>
      match meta_tags resource with
      | None => walk_loop tags rest
      | Some taglist =>
          if bool_decide (tags ⊆ taglist_set taglist)
          then resource :: walk_loop tags rest
          else walk_loop tags rest
      end
  end.

Definition walk_resources_tagged_with (site : Site) (tag : string)
  : result (list Resource) :=
  let tags : gset string := list_to_set (split plus tag) in
  walker <- get_tagger_sort_method site;;
  Ok (walk_loop tags walker).

(** ** The Tag class *)

(** Values an attribute of a [Tag] can hold: the name, the list of
    resources (by [rid]), a relation dictionary (relation name to the list
    of related tags), or a value merged in from the configuration. *)
Inductive value :=
| VStr (s : string)
| VResources (l : list nat)
| VRelations (d : gmap string (list ref))
| VMeta (y : yaml).

(** A [Tag] object is its attribute dictionary; the store holds every [Tag]
    allocated so far, and a [ref] is an index into it. *)
Abbreviation TagObj := (gmap string value).
Abbreviation store := (list (gmap string value)).

(** The entry [attr] of the attribute dictionary of object [o]. *)
Definition attr_of (h : store) (o : ref) (attr : string) : option value :=
  h !! o ≫= (.!! attr).

Definition getattr (h : store) (o : ref) (attr : string) : result value :=
  match attr_of h o attr with
  | Some v => Ok v
  | None => Raise (AttributeError attr)
  end.

Definition setattr (h : store) (o : ref) (attr : string) (v : value) : store :=
  alter (<[attr := v]>) o h.

(** Reads an attribute that the code uses as a relation dictionary. *)
Definition get_relations (h : store) (o : ref) (attr : string)
  : result (gmap string (list ref)) :=
  v <- getattr h o attr;;
  match v with
  | VRelations d => Ok d
  | _ => Raise (TypeError attr)
  end.

Definition get_resources (h : store) (o : ref) : result (list nat) :=
  v <- getattr h o "resources";;
  match v with
  | VResources l => Ok l
  | _ => Raise (TypeError "resources")
  end.

Module Tag.

Definition __init__ (name : string) : TagObj :=
  <["out_relations" := VRelations ∅]>
    (<["in_relations" := VRelations ∅]>
       (<["resources" := VResources []]>
          (<["name" := VStr name]> ∅))).

(** [Tag(name)]: a new object at the end of the store. *)
Definition new (name : string) (h : store) : ref * store :=
  (length h, (h ++ [__init__ name])%list).

Definition is_leaf (h : store) (self : ref) : result bool :=
  in_relations <- get_relations h self "in_relations";;
  Ok (bool_decide (size in_relations = 0)).

(** The body of [__create_relation], on the dictionary it mutates.
    [self in relations[relation_name]] is a test on objects: [Tag] defines
    no [__eq__], so a tag is in the list when the list holds that very
    object. *)
Definition __create_relation (self : ref) (relation_name : string)
    (relations : gmap string (list ref)) : gmap string (list ref) :=
  let relations :=
    if bool_decide (relation_name ∈ dom relations) then relations
    else <[relation_name := []]> relations in
  let bucket := default [] (relations !! relation_name) in
  if bool_decide (self ∈ bucket) then relations
  else <[relation_name := (bucket ++ [self])%list]> relations.

(** The dictionaries are mutated in place: the store gets the updated
    dictionary back under the attribute it was read from. *)
Definition relate_to_tag (self tag : ref) (relation_name : string) (h : store)
  : result store :=
  out_relations <- get_relations h self "out_relations";;
  let h := setattr h self "out_relations"
             (VRelations (__create_relation tag relation_name out_relations)) in
  in_relations <- get_relations h tag "in_relations";;
  Ok (setattr h tag "in_relations"
        (VRelations (__create_relation self relation_name in_relations))).

(** [__str__] and [__repr__]: [self.name]. *)
Definition __str__ (h : store) (self : ref) : result string :=
  v <- getattr h self "name";;
  match v with
  | VStr s => Ok s
  | _ => Raise (TypeError "name")
  end.

End Tag.

(** Modelled from the spec: [Expando.update] of hyde.model, whose source is
    not part of this plugin.  Merging a dictionary into an object sets one
    attribute per key, replacing an attribute of the same name. *)
Definition Expando_update (o : TagObj) (d : gmap string yaml) : TagObj :=
  (VMeta <$> d) ∪ o.

(** ** The plugin *)

(** A loop whose body can raise: the first exception ends it. *)
Fixpoint for_each {S A} (body : S → A → result S) (s : S) (l : list A) : result S :=
  match l with
  | [] => Ok s
  | x :: rest => s' <- body s x;; for_each body s' rest
  end.

(** [d.popitem()]: some entry of the dictionary, removed from it. *)
Definition popitem {A} (d : gmap string A) : result ((string * A) * gmap string A) :=
  match map_to_list d with
  | [] => Raise (KeyError "popitem(): dictionary is empty")
  | (k, v) :: _ => Ok ((k, v), delete k d)
  end.

(** What the plugin builds: the tag objects, the [tags] dictionary (tag
    name to tag) and the walker methods added to [Node], each a partial
    application of [walk_resources_tagged_with] to a tag. *)
Record Build := mkBuild {
  heap : store;
  tags : gmap string ref;
  node_methods : gmap string ref
}.

Definition walker_name (tagname : string) : string :=
  "walk_resources_tagged_with_" ++ tagname.

(** [add_method(Node, name, walk_resources_tagged_with, tag=tag)] *)
Definition add_method (name : string) (tag : ref) (b : Build) : Build :=
  mkBuild (heap b) (tags b) (<[name := tag]> (node_methods b)).

Definition getitem (tags : gmap string ref) (key : string) : result ref :=
  match tags !! key with
  | Some tag => Ok tag
  | None => Raise (KeyError key)
  end.

(** [tag.resources.append(resource)] *)
Definition append_resource (tag : ref) (resource : Resource) (h : store)
  : result store :=
  l <- get_resources h tag;;
  Ok (setattr h tag "resources" (VResources (l ++ [rid resource])%list)).

Module TaggerPlugin.

(** The [tags] argument of the source is not used by its body and is left
    out.  [tagname] is the structured declaration, [tagname.to_dict()]
    its dictionary. *)
Definition _parse_tag_relations (tagname : gmap string relations_decl)
  : result (string * gmap string string) :=
  let tag_with_relations := tagname in
  popped <- popitem tag_with_relations;;
  let '((tagname, relations), tag_with_relations) := popped in
  if bool_decide (0 < size tag_with_relations) then
    Raise (TemplateException (InvalidDefinitionOfTag tagname relations))
  else
    let relations :=
      match relations with
      | RelList l => foldl (λ tmp relation, <[relation := relation]> tmp) ∅ l
      | RelDict d => d
      end in
    Ok (tagname, relations).

(** One turn of the loop of [_create_tag_relations]. *)
Definition relation_step (tag : ref) (b : Build) (item : string * string)
  : result Build :=
  let '(relation_name, related_tag_name) := item in
  let '(related_tag, b) :=
    match tags b !! related_tag_name with
    | None =>
        let '(related_tag, h) := Tag.new related_tag_name (heap b) in
        (related_tag,
         mkBuild h (<[relation_name := related_tag]> (tags b))
           (node_methods b))
    | Some related_tag => (related_tag, b)
    end in
  let b := add_method (walker_name related_tag_name) tag b in
  h <- Tag.relate_to_tag tag related_tag relation_name (heap b);;
  Ok (mkBuild h (tags b) (node_methods b)).

Definition _create_tag_relations (tag : ref) (b : Build)
    (relations : gmap string string) : result Build :=
  for_each (relation_step tag) b (map_to_list relations).

(** [_process_tag_metadata], one entry of [tag_meta]. *)
Definition metadata_step (tags : gmap string ref) (h : store)
    (item : string * gmap string yaml) : store :=
  let '(tagname, meta) := item in
  let meta :=
    if bool_decide ("resources" ∈ dom meta) then delete "resources" meta
    else meta in
  let meta :=
    if bool_decide ("name" ∈ dom meta) then delete "name" meta else meta in
  match tags !! tagname with
  | Some tag => alter (λ o, Expando_update o meta) tag h
  | None => h
  end.

(** [self.site.config.tagger.tags.to_dict()], or [{}] on [AttributeError]. *)
Definition config_tag_meta (site : Site) : gmap string (gmap string yaml) :=
  default ∅ (tagger (config site) ≫= tagger_tags).

Definition _process_tag_metadata (site : Site) (tags : gmap string ref)
    (h : store) : store :=
  let tag_meta := config_tag_meta site in
  foldl (metadata_step tags) h (map_to_list tag_meta).

(** One turn of the loop of [_process_tags_in_resource]; the loop carries
    the build, [new_tag_list] and the resource. *)
Definition declaration_step (acc : Build * list tag_decl * Resource)
    (tagname : tag_decl) : result (Build * list tag_decl * Resource) :=
  let '(b, new_tag_list, resource) := acc in
  parsed <- match tagname with
            | Structured d =>
                p <- _parse_tag_relations d;; Ok (p.1, Some p.2)
            | Plain tagname => Ok (tagname, None)
            end;;
  let '(tagname, relations) := parsed in
  let new_tag_list := (new_tag_list ++ [Plain tagname])%list in
  b <- match tags b !! tagname with
       | None =>
           let '(tag, h) := Tag.new tagname (heap b) in
           let tags := <[tagname := tag]> (tags b) in
           h <- append_resource tag resource h;;
           Ok (add_method (walker_name tagname) tag
                 (mkBuild h tags (node_methods b)))
       | Some tag =>
           h <- append_resource tag resource (heap b);;
           Ok (mkBuild h (tags b) (node_methods b))
       end;;
  b <- match relations with
       | Some relations =>
           if bool_decide (relations ≠ ∅) then
             tag <- getitem (tags b) tagname;;
             _create_tag_relations tag b relations
           else Ok b
       | None => Ok b
       end;;
  let resource :=
    match res_tags resource with
    | None => mkResource (rid resource) (meta_tags resource) (Some [])
    | Some _ => resource
    end in
  tag <- getitem (tags b) tagname;;
  let resource :=
    mkResource (rid resource) (meta_tags resource)
      (Some (default [] (res_tags resource) ++ [tag])%list) in
  Ok (b, new_tag_list, resource).

Definition _process_tags_in_resource (resource : Resource) (b : Build)
  : result (Build * Resource) :=
  match meta_tags resource with
  | None => Ok (b, resource)
  | Some taglist =>
      r <- for_each declaration_step (b, [], resource) taglist;;
      let '(b, new_tag_list, resource) := r in
      Ok (b, mkResource (rid resource) (Some new_tag_list) (res_tags resource))
  end.

End TaggerPlugin.

(** Calling the method [name] that [add_method] put on [Node]: the partial
    application [walk_resources_tagged_with(node, tag=tag)], in which
    [unicode(tag)] is the tag's [__str__]. *)
Definition call_node_method (b : Build) (site : Site) (name : string)
  : result (list Resource) :=
  match node_methods b !! name with
  | None => Raise (AttributeError name)
  | Some tag =>
      s <- Tag.__str__ (heap b) tag;;
      walk_resources_tagged_with site s
  end.

(** ** Archives *)

(** The part of the host the archive generator acts on: the files on disk
    (path to text), the folders that exist, and the files handed to
    [site.content.add_resource], in call order. *)
Record World := mkWorld {
  files : gmap string string;
  folders : gset string;
  added_resources : list string
}.

(** Modelled from the spec: [Folder.child] and [Folder.child_folder] of
    hyde.fs, whose source is not part of this plugin; the archive of a tag
    is written to [target/<tagname>.<extension>]. *)
Definition child (folder name : string) : string := folder ++ "/" ++ name.

Definition newline : string := String (ascii_of_nat 10) EmptyString.
Definition dquote : string := String (ascii_of_nat 34) EmptyString.

(** The whitespace of [strip()] in the ASCII range. *)
Definition is_space (c : ascii) : bool :=
  let n := nat_of_ascii c in
  bool_decide (n = 32 ∨ (9 ≤ n ∧ n ≤ 13) ∨ (28 ≤ n ∧ n ≤ 31))%nat.

Fixpoint lstrip (s : string) : string :=
  match s with
  | EmptyString => EmptyString
  | String c rest => if is_space c then lstrip rest else s
  end.

Fixpoint rstrip (s : string) : string :=
  match s with
  | EmptyString => EmptyString
  | String c rest =>
      match rstrip rest with
      | EmptyString => if is_space c then EmptyString else String c EmptyString
      | r => String c r
      end
  end.

Definition strip (s : string) : string := rstrip (lstrip s).

(** [archive_text % tag_data] *)
Definition archive_text (tag node template meta : string) : string :=
  newline ++ "---" ++ newline ++
  "extends: false" ++ newline ++
  meta ++ newline ++
  "---" ++ newline ++
  newline ++
  "{% set tag = site.tagger.tags['" ++ tag ++ "'] %}" ++ newline ++
  "{% set source = site.content.node_from_relative_path('" ++ node ++ "') %}" ++ newline ++
  "{% set walker = source.walk_resources_tagged_with_" ++ tag ++ " %}" ++ newline ++
  "{% extends " ++ dquote ++ template ++ dquote ++ " %}" ++ newline.

Section Archive.

(** [yaml.dump(meta, default_flow_style=False)] and [Folder(path).name]
    belong to the host. *)
Variable yaml_dump : gmap string yaml → string.
Variable folder_name : string → string.

(** [source_folder] is [self.site.content.source_folder], [tags] the
    dictionary published as [site.tagger.tags]. *)
Variable source_folder : string.
Variable tags : gmap string ref.

Definition archive_path (target tagname extension : string) : string :=
  child target (tagname ++ "." ++ extension).

(** One turn of the loop over the tags. *)
Definition archive_step (source target extension template meta_text : string)
    (w : World) (item : string * ref) : World :=
  let '(tagname, tag) := item in
  let text := archive_text tagname (folder_name source) template meta_text in
  let archive_file := archive_path target tagname extension in
  (* archive_file.delete() *)
  let w := mkWorld (delete archive_file (files w)) (folders w)
             (added_resources w) in
  (* archive_file.write(text.strip()) *)
  let w := mkWorld (<[archive_file := strip text]> (files w)) (folders w)
             (added_resources w) in
  (* self.site.content.add_resource(archive_file) *)
  mkWorld (files w) (folders w) (added_resources w ++ [archive_file])%list.

(** The block that writes the meta data of the configuration. *)
Definition archive_meta_text (config : ArchiveConfig) : string :=
  let meta := default ∅ (a_meta config) in
  if bool_decide (meta ≠ ∅) then yaml_dump meta else "".

(** The world after the call, and the exception if one was raised. *)
Definition _create_tag_archive (config : ArchiveConfig) (w : World)
  : World * option exn :=
  match a_template config with
  | None => (w, Some (TemplateException NoTemplateSpecified))
  | Some template =>
      let content := source_folder in
      let source := default "" (a_source config) in
      let target := child content (default "tags" (a_target config)) in
      let w :=
        if bool_decide (target ∈ folders w) then w
        else mkWorld (files w) ({[target]} ∪ folders w) (added_resources w) in
      let meta_text := archive_meta_text config in
      let extension := default "html" (a_extension config) in
      (foldl (archive_step source target extension template meta_text) w
         (map_to_list tags), None)
  end.

(** [archive_config] is [tagger.archives]; the first exception ends the
    loop. *)
Fixpoint archives_loop (configs : list (string * ArchiveConfig)) (w : World)
  : World * option exn :=
  match configs with
  | [] => (w, None)
  | (name, config) :: rest =>
      match _create_tag_archive config w with
      | (w, None) => archives_loop rest w
      | (w, Some e) => (w, Some e)
      end
  end.

Definition _generate_archives (site : Site) (w : World) : World * option exn :=
  match tagger (config site) ≫= archives with
  | None => (w, None)
  | Some archive_config => archives_loop (map_to_list archive_config) w
  end.

End Archive.

(** ** begin_site *)

(** The loop of [begin_site] over the resources: every resource is
    processed on the [tags] dictionary built so far.  The resources are
    changed in place; the loop returns them as it left them, in the order
    of the enumeration. *)
Fixpoint process_resources (walker : list Resource) (b : Build)
  : result (Build * list Resource) :=
  match walker with
  | [] => Ok (b, [])
  | resource :: rest =>
      p <- TaggerPlugin._process_tags_in_resource resource b;;
      q <- process_resources rest p.1;;
      Ok (q.1, p.2 :: q.2)
  end.

Section BeginSite.

Variable yaml_dump : gmap string yaml → string.
Variable folder_name : string → string.
Variable source_folder : string.

(** [begin_site].  [tags] starts empty; the method that the first
    [add_method] puts on [Node] is [walk_resources_tagged_with] itself and
    adds nothing to the state.  The result is the world after the call
    together with the exception raised or, without one, the build that is
    published as [site.tagger.tags] and the processed resources. *)
Definition begin_site (site : Site) (w : World)
  : World * result (Build * list Resource) :=
  match (walker <- get_tagger_sort_method site;;
         process_resources walker (mkBuild [] ∅ ∅)) with
  | inl e => (w, Raise e)
  | inr (b, resources) =>
      let h := TaggerPlugin._process_tag_metadata site (tags b) (heap b) in
      let b := mkBuild h (tags b) (node_methods b) in
      match _generate_archives yaml_dump folder_name source_folder (tags b)
              site w with
      | (w, Some e) => (w, Raise e)
      | (w, None) => (w, Ok (b, resources))
      end
  end.

End BeginSite.

(** ** Reference readings used by the properties *)

Global Instance relations_decl_eq_dec : EqDecision relations_decl.
Proof. solve_decision. Defined.

Global Instance tag_decl_eq_dec : EqDecision tag_decl.
Proof. solve_decision. Defined.

(** The query as the specification reads it: a resource matches when it has
    a tag list and every requested name occurs in that list. *)
Definition tagged_with_all (names : list string) (resource : Resource) : bool :=
  match meta_tags resource with
  | None => false
  | Some taglist => forallb (λ name, bool_decide (Plain name ∈ taglist)) names
  end.

(** An object of the store with the four attributes of [Tag.__init__], each
    holding a value of the kind [__init__] gave it. *)
Definition is_tag (h : store) (o : ref) : Prop :=
  ∃ name resources in_relations out_relations,
    attr_of h o "name" = Some (VStr name) ∧
    attr_of h o "resources" = Some (VResources resources) ∧
    attr_of h o "in_relations" = Some (VRelations in_relations) ∧
    attr_of h o "out_relations" = Some (VRelations out_relations).

(** The tags listed under [relation_name] in a relation dictionary of [o];
    empty when there is no such entry. *)
Definition bucket (h : store) (o : ref) (attr relation_name : string) : list ref :=
  match attr_of h o attr with
  | Some (VRelations d) => default [] (d !! relation_name)
  | _ => []
  end.

(** Every entry of the [tags] dictionary refers to a tag of the store. *)
Definition wf_build (b : Build) : Prop :=
  ∀ tagname tag, tags b !! tagname = Some tag → is_tag (heap b) tag.

(** [c in s] for a character. *)
Fixpoint occurs (c : ascii) (s : string) : bool :=
  match s with
  | EmptyString => false
  | String a rest => Ascii.eqb a c || occurs c rest
  end.

(** The explicit mapping that a list of relation names abbreviates: every
    relation name maps to itself as the target tag name. *)
Definition explicit_form (relations : list string) : gmap string string :=
  list_to_map ((λ relation, (relation, relation)) <$> relations).

(** What one relation does to the store: it may add one tag at the end,
    keeps every tag a tag, only adds to relation lists, and leaves every
    other attribute alone. *)
Definition store_grows (h h' : store) : Prop :=
  (length h ≤ length h')%nat ∧
  (∀ o, is_tag h o → is_tag h' o) ∧
  (∀ o attr other y,
     is_Some (h !! o) → y ∈ bucket h o attr other → y ∈ bucket h' o attr other) ∧
  (∀ o attr,
     is_Some (h !! o) → attr ≠ "in_relations" → attr ≠ "out_relations" →
     attr_of h' o attr = attr_of h o attr).

(** Every entry of the [tags] dictionary refers to a tag of the store whose
    name is the key. *)
Definition wf_named (b : Build) : Prop :=
  ∀ tagname tag,
    tags b !! tagname = Some tag →
    is_tag (heap b) tag ∧ attr_of (heap b) tag "name" = Some (VStr tagname).

(** A declaration and the entry that replaces it in the normalized tag
    list: the tag name it declares. *)
Definition normalizes (decl out : tag_decl) : Prop :=
  ∃ tagname,
    out = Plain tagname ∧
    (decl = Plain tagname ∨
     ∃ relations, decl = Structured {[tagname := relations]}).

(** The resource list of the tag registered as [tagname]; empty when no tag
    is registered under that name. *)
Definition tag_resources (b : Build) (tagname : string) : list nat :=
  match tags b !! tagname with
  | Some tag =>
      match attr_of (heap b) tag "resources" with
      | Some (VResources l) => l
      | _ => []
      end
  | None => []
  end.

(** Every registered tag has its walker on [Node], bound to itself. *)
Definition wf_walkers (b : Build) : Prop :=
  ∀ tagname tag,
    tags b !! tagname = Some tag →
    node_methods b !! walker_name tagname = Some tag.

(** The names a resource declares with plain declarations. *)
Definition declared_names (resource : Resource) : list string :=
  match meta_tags resource with
  | Some taglist => omap plain_name taglist
  | None => []
  end.

(** A resource all of whose declarations are plain tag names. *)
Definition plain_resource (resource : Resource) : Prop :=
  ∀ taglist decl,
    meta_tags resource = Some taglist → decl ∈ taglist →
    ∃ tagname, decl = Plain tagname.

(** How often the resources of an enumeration declare the tag [tagname]:
    the [rid] of each resource, once per declaration, in enumeration
    order. *)
Definition declarations_of (tagname : string) (walker : list Resource)
  : list nat :=
  walker ≫= λ resource,
    replicate (length (filter (λ n, n = tagname) (declared_names resource)))
      (rid resource).

(** ** Concrete inputs *)

Definition resource_ab : Resource :=
  mkResource 1 (Some [Plain "a"; Plain "b"]) None.
Definition resource_untagged : Resource := mkResource 2 None None.
Definition resource_bac : Resource :=
  mkResource 3 (Some [Plain "b"; Plain "a"; Plain "c"]) None.

(** A site without a [tagger] section in its configuration. *)
Definition site_plain : Site :=
  mkSite (mkConfig None)
    {[ "walk_resources" := [resource_ab; resource_untagged; resource_bac] ]}.

(** A site whose configuration names the sorter [kind] while the content
    has no [walk_resources_sorted_by_kind]. *)
Definition site_missing_sorter : Site :=
  mkSite (mkConfig (Some (mkTagger (Some "kind") None None)))
    {[ "walk_resources" := [resource_ab; resource_untagged; resource_bac] ]}.

(** Two tags, [post] and [author], not yet related. *)
Definition store_two_tags : store := [Tag.__init__ "post"; Tag.__init__ "author"].

(** [{posts: [author, feature], extra: [x]}] *)
Definition decl_two_keys : gmap string relations_decl :=
  {[ "posts" := RelList ["author"; "feature"]; "extra" := RelList ["x"] ]}.

(** [{posts: [author, feature]}] *)
Definition decl_one_key : gmap string relations_decl :=
  {[ "posts" := RelList ["author"; "feature"] ]}.

(** Tag metadata [{x: {name: y, resources: [], color: red}, ghost: {color: blue}}]
    for a build that knows the tag [x] only. *)
Definition site_tag_meta : Site :=
  mkSite
    (mkConfig (Some (mkTagger None
       (Some {[ "x" := {[ "name" := YScalar "y"; "resources" := YSeq [];
                          "color" := YScalar "red" ]};
                "ghost" := {[ "color" := YScalar "blue" ]} ]})
       None)))
    ∅.

(** The build after a resource declared the plain tag [post]. *)
Definition build_post : Build :=
  mkBuild [Tag.__init__ "post"] {[ "post" := 0 ]} ∅.

(** A resource declaring [{post: {parent: author}}] and then [author]. *)
Definition resource_post : Resource :=
  mkResource 7
    (Some [Structured {[ "post" := RelDict {[ "parent" := "author" ]} ]};
           Plain "author"])
    None.

(** The build after a resource declared the plain tag [c++], and a site
    whose only resource carries that tag. *)
Definition build_cpp : Build :=
  mkBuild [Tag.__init__ "c++"] {[ "c++" := 0 ]} ∅.

Definition resource_cpp : Resource := mkResource 4 (Some [Plain "c++"]) (Some [0]).

Definition site_cpp : Site :=
  mkSite (mkConfig None) {[ "walk_resources" := [resource_cpp] ]}.

(** The archive [{template: t.j2, source: blog, target: tags}], and a world
    in which [content/tags/python.html] already exists. *)
Definition archive_blog : ArchiveConfig :=
  mkArchive (Some "t.j2") (Some "blog") (Some "tags") None None.

Definition archive_without_template : ArchiveConfig :=
  mkArchive None (Some "blog") (Some "tags") None None.

Definition world_stale : World :=
  mkWorld {[ "content/tags/python.html" := "stale" ]} ∅ [].

Definition tags_python_go : gmap string ref := {[ "python" := 0; "go" := 1 ]}.

(** A site with a resource that carries the empty tag name. *)
Definition resource_empty_name : Resource :=
  mkResource 5 (Some [Plain "a"; Plain ""]) None.

Definition site_empty_name : Site :=
  mkSite (mkConfig None)
    {[ "walk_resources" := [resource_ab; resource_empty_name] ]}.

(** A site with the two archives [blog] (with a template) and [notes]
    (without one), and a site with the archive [blog] only. *)
Definition site_archives_bad : Site :=
  mkSite (mkConfig (Some (mkTagger None None
            (Some {[ "blog" := archive_blog;
                     "notes" := archive_without_template ]}))))
    ∅.

Definition site_archives_good : Site :=
  mkSite (mkConfig (Some (mkTagger None None
            (Some {[ "blog" := archive_blog ]}))))
    ∅.

(** The build after one resource declared the plain tags [a] and [b], and a
    resource that declares [b] twice and [c] once. *)
Definition resource_bbc : Resource :=
  mkResource 9 (Some (Plain <$> ["b"; "b"; "c"])) None.

(** The three resources tagged [python, tutorial], [python] and [go], on a
    site with the archive [blog]. *)
Definition resource_python_tutorial : Resource :=
  mkResource 1 (Some [Plain "python"; Plain "tutorial"]) None.
Definition resource_python : Resource := mkResource 2 (Some [Plain "python"]) None.
Definition resource_go : Resource := mkResource 3 (Some [Plain "go"]) None.

Definition site_three : Site :=
  mkSite (mkConfig (Some (mkTagger None None
            (Some {[ "blog" := archive_blog ]}))))
    {[ "walk_resources" :=
         [resource_python_tutorial; resource_python; resource_go] ]}.

(** A site whose second resource has a declaration with two keys. *)
Definition resource_two_keys : Resource :=
  mkResource 2 (Some [Plain "python"; Structured decl_two_keys]) None.

Definition site_malformed : Site :=
  mkSite (mkConfig (Some (mkTagger None None
            (Some {[ "blog" := archive_blog ]}))))
    {[ "walk_resources" :=
         [resource_python_tutorial; resource_two_keys; resource_go] ]}.

(** A site with one resource tagged [post] and one tagged [author]. *)
Definition resource_tagged_post : Resource :=
  mkResource 11 (Some [Plain "post"]) None.
Definition resource_tagged_author : Resource :=
  mkResource 12 (Some [Plain "author"]) None.

Definition site_post_author : Site :=
  mkSite (mkConfig None)
    {[ "walk_resources" := [resource_tagged_post; resource_tagged_author] ]}.

(** Two resources, declaring [{post: [author]}] and [{page: [author]}]. *)
Definition resource_post_author : Resource :=
  mkResource 13 (Some [Structured {[ "post" := RelList ["author"] ]}]) None.
Definition resource_page_author : Resource :=
  mkResource 14 (Some [Structured {[ "page" := RelList ["author"] ]}]) None.

(** A site with the sorter [kind] whose content has the unsorted and the
    sorted walker, enumerating in different orders. *)
Definition site_sorted : Site :=
  mkSite (mkConfig (Some (mkTagger (Some "kind") None None)))
    {[ "walk_resources" := [resource_ab; resource_bac];
       "walk_resources_sorted_by_kind" := [resource_bac; resource_ab] ]}.

(** * Properties *)

(** ** Queries by tag *)

Lemma elem_of_taglist_set (name : string) (taglist : list tag_decl) :
  name ∈ taglist_set taglist ↔ Plain name ∈ taglist.
Proof.
  unfold taglist_set. rewrite elem_of_list_to_set, list_elem_of_omap. split.
  - intros (d & Hd & Hname). destruct d; simplify_eq/=. done.
  - intros H. exists (Plain name). done.
Qed.

Lemma subset_taglist_set (names : list string) (taglist : list tag_decl) :
  bool_decide (list_to_set names ⊆ taglist_set taglist)
  = forallb (λ name, bool_decide (Plain name ∈ taglist)) names.
Proof.
  apply eq_true_iff_eq. rewrite bool_decide_eq_true.
  rewrite <- Is_true_true, forallb_True, Forall_forall. split.
  - intros Hsub name Hin. apply bool_decide_pack.
    apply elem_of_taglist_set, Hsub. by apply elem_of_list_to_set.
  - intros Hall name Hin%elem_of_list_to_set.
    apply elem_of_taglist_set. specialize (Hall name Hin).
    by apply bool_decide_unpack in Hall.
Qed.

Lemma walk_loop_filter (names : list string) (walker : list Resource) :
  walk_loop (list_to_set names) walker
  = List.filter (tagged_with_all names) walker.
Proof.
  induction walker as [|resource rest IH]; [done|].
  simpl. unfold tagged_with_all at 1.
  destruct (meta_tags resource) as [taglist|]; [|done].
  rewrite subset_taglist_set. by rewrite IH.
Qed.

(** C1. For every site and every query string, the walk yields, in the
    order of the configured enumeration, exactly the resources whose tag
    list contains every name of the [+]-separated query; a resource without
    a tag list is left out and raises nothing.  The only exception is the
    one of the walker lookup. *)
Theorem walk_resources_tagged_with_all (site : Site) (tag : string) :
  walk_resources_tagged_with site tag
  = (walker <- get_tagger_sort_method site;;
     Ok (List.filter (tagged_with_all (split plus tag)) walker)).
Proof.
  unfold walk_resources_tagged_with.
  destruct (get_tagger_sort_method site) as [e|walker]; [done|].
  simpl. by rewrite walk_loop_filter.
Qed.

(** C10. Two queries that split into the same names, in whatever order and
    multiplicity, yield the same sequence of resources. *)
Theorem walk_resources_tagged_with_set (site : Site) (tag1 tag2 : string) :
  (∀ name, name ∈ split plus tag1 ↔ name ∈ split plus tag2) →
  walk_resources_tagged_with site tag1 = walk_resources_tagged_with site tag2.
Proof.
  intros Hsame. unfold walk_resources_tagged_with.
  assert (list_to_set (split plus tag1) =@{gset string}
          list_to_set (split plus tag2)) as ->; [|done].
  apply set_eq. intros name. by rewrite !elem_of_list_to_set.
Qed.

Lemma walk_resources_tagged_with_set_witness :
  (∀ name, name ∈ split plus "a+b+a" ↔ name ∈ split plus "b+a") ∧
  walk_resources_tagged_with site_plain "a+b+a"
  = walk_resources_tagged_with site_plain "b+a".
Proof.
  assert (∀ name, name ∈ split plus "a+b+a" ↔ name ∈ split plus "b+a") as H.
  { intros name. simpl. rewrite !elem_of_cons, !elem_of_nil. tauto. }
  split; [exact H|].
  exact (walk_resources_tagged_with_set site_plain "a+b+a" "b+a" H).
Defined.

Example walk_resources_tagged_with_and :
  walk_resources_tagged_with site_plain "a+c" = Ok [resource_bac].
Proof. vm_compute. reflexivity. Qed.

(** ** The walker lookup *)

Lemma get_tagger_sort_method_default (site : Site) :
  attrgetter_tagger_sorter (config site) = None →
  get_tagger_sort_method site
  = match content site !! "walk_resources" with
    | Some walker => Ok walker
    | None => Raise (NameError "self")
    end.
Proof. intros H. unfold get_tagger_sort_method. rewrite H. done. Qed.

(** With a sorter configured and no matching walker on the content, the
    [raise] statement itself fails: [self] is not bound in the function. *)
Lemma get_tagger_sort_method_missing (site : Site) (name : string) :
  attrgetter_tagger_sorter (config site) = Some name →
  content site !! ("walk_resources" ++ "_sorted_by_" ++ name) = None →
  get_tagger_sort_method site = Raise (NameError "self").
Proof.
  intros Hsorter Hwalker. unfold get_tagger_sort_method.
  rewrite Hsorter. simpl. rewrite Hwalker. done.
Qed.

(** C7. With the sorter [kind] configured and no
    [walk_resources_sorted_by_kind] on the content, the lookup ends in a
    [NameError] for [self]; the exception with the message naming the
    sorter is never built. *)
Theorem get_tagger_sort_method_name_error :
  get_tagger_sort_method site_missing_sorter = Raise (NameError "self") ∧
  get_tagger_sort_method site_missing_sorter
  ≠ Raise (TemplateException (CannotFindSorter (Some "kind"))).
Proof. split; [vm_compute; reflexivity|vm_compute; discriminate]. Qed.

(** ** Parsing a structured tag declaration *)

Import TaggerPlugin.

Lemma popitem_Some {A} (d : gmap string A) :
  0 < size d →
  ∃ k v, d !! k = Some v ∧ popitem d = Ok ((k, v), delete k d).
Proof.
  intros Hsize. unfold popitem.
  destruct (map_to_list d) as [|[k v] rest] eqn:Hlist.
  - rewrite <- length_map_to_list, Hlist in Hsize. simpl in Hsize. lia.
  - exists k, v. split; [|done].
    apply elem_of_map_to_list. rewrite Hlist. apply elem_of_cons. by left.
Qed.

Lemma size_one_singleton {A} (d : gmap string A) k v :
  size d = 1 → d !! k = Some v → d = {[k := v]}.
Proof.
  intros Hsize Hk.
  assert (delete k d = ∅) as Hdel.
  { apply map_size_empty_inv. rewrite map_size_delete, Hk, Hsize. done. }
  rewrite <- (insert_delete_id d k v Hk), Hdel. apply insert_empty.
Qed.

(** C5. A structured declaration with more than one top-level key is
    refused with the tag-definition exception, which carries one of the
    declaration's own entries; a declaration with exactly one key is
    parsed, and the key is the tag name. *)
Theorem parse_tag_relations_keys (d : gmap string relations_decl) :
  (1 < size d →
   ∃ tagname relations,
     d !! tagname = Some relations ∧
     _parse_tag_relations d
     = Raise (TemplateException (InvalidDefinitionOfTag tagname relations))) ∧
  (size d = 1 →
   ∃ tagname relations relation_map,
     d = {[tagname := relations]} ∧
     _parse_tag_relations d = Ok (tagname, relation_map)).
Proof.
  split; intros Hsize.
  - destruct (popitem_Some d) as (k & v & Hk & Hpop); [lia|].
    exists k, v. split; [done|].
    unfold _parse_tag_relations. rewrite Hpop. simpl.
    rewrite bool_decide_true; [done|].
    rewrite map_size_delete, Hk. simpl. lia.
  - destruct (popitem_Some d) as (k & v & Hk & Hpop); [lia|].
    exists k, v. eexists. split; [by apply size_one_singleton|].
    unfold _parse_tag_relations. rewrite Hpop. simpl.
    rewrite bool_decide_false; [done|].
    rewrite map_size_delete, Hk, Hsize. simpl. lia.
Qed.

Lemma parse_tag_relations_keys_witness :
  1 < size decl_two_keys ∧ size decl_one_key = 1 ∧
  (∃ tagname relations,
     decl_two_keys !! tagname = Some relations ∧
     _parse_tag_relations decl_two_keys
     = Raise (TemplateException (InvalidDefinitionOfTag tagname relations))) ∧
  (∃ tagname relations relation_map,
     decl_one_key = {[tagname := relations]} ∧
     _parse_tag_relations decl_one_key = Ok (tagname, relation_map)).
Proof.
  assert (1 < size decl_two_keys) as H2 by (vm_compute; lia).
  assert (size decl_one_key = 1) as H1 by (vm_compute; reflexivity).
  split; [exact H2|]. split; [exact H1|]. split.
  - exact (proj1 (parse_tag_relations_keys decl_two_keys) H2).
  - exact (proj2 (parse_tag_relations_keys decl_one_key) H1).
Defined.

Lemma parse_tag_relations_singleton tagname relations :
  _parse_tag_relations {[tagname := relations]}
  = Ok (tagname,
        match relations with
        | RelList l => foldl (λ tmp relation, <[relation := relation]> tmp) ∅ l
        | RelDict d => d
        end).
Proof.
  unfold _parse_tag_relations, popitem.
  rewrite map_to_list_singleton. simpl.
  rewrite delete_singleton_eq, map_size_empty. done.
Qed.

Lemma lookup_foldl_insert_self (l : list string) (m : gmap string string) k :
  foldl (λ tmp relation, <[relation := relation]> tmp) m l !! k
  = if bool_decide (k ∈ l) then Some k else m !! k.
Proof.
  revert m. induction l as [|r l IH]; intros m.
  - cbn [foldl]. case_bool_decide as Hin; [|done]. by apply elem_of_nil in Hin.
  - cbn [foldl]. rewrite IH.
    destruct (decide (k = r)) as [->|Hne].
    + rewrite lookup_insert_eq. rewrite (bool_decide_true (r ∈ r :: l)).
      * by case_bool_decide.
      * apply elem_of_cons. by left.
    + rewrite lookup_insert_ne by done.
      repeat case_bool_decide; try done; exfalso;
        rewrite elem_of_cons in *; tauto.
Qed.

Lemma lookup_explicit_form (l : list string) k :
  explicit_form l !! k = if bool_decide (k ∈ l) then Some k else None.
Proof.
  unfold explicit_form. induction l as [|r l IH].
  - cbn [fmap list_fmap list_to_map foldr]. rewrite lookup_empty.
    case_bool_decide as Hin; [|done]. by apply elem_of_nil in Hin.
  - cbn [fmap list_fmap list_to_map foldr curry fst snd].
    destruct (decide (k = r)) as [->|Hne].
    + rewrite lookup_insert_eq, bool_decide_true; [done|].
      apply elem_of_cons. by left.
    + rewrite lookup_insert_ne by done.
      cbn [fmap list_fmap list_to_map foldr] in IH. rewrite IH.
      repeat case_bool_decide; try done; exfalso;
        rewrite elem_of_cons in *; tauto.
Qed.

(** C6. The list shorthand and the explicit mapping in which every relation
    name is its own target parse to the same tag name and relation map, so
    that the relations created from either are the same. *)
Theorem parse_tag_relations_shorthand (tagname : string) (l : list string) :
  _parse_tag_relations {[tagname := RelList l]}
  = _parse_tag_relations {[tagname := RelDict (explicit_form l)]} ∧
  _parse_tag_relations {[tagname := RelList l]} = Ok (tagname, explicit_form l) ∧
  ∀ tag b,
    (p <- _parse_tag_relations {[tagname := RelList l]};;
     _create_tag_relations tag b p.2)
    = (p <- _parse_tag_relations {[tagname := RelDict (explicit_form l)]};;
       _create_tag_relations tag b p.2).
Proof.
  assert (foldl (λ tmp relation, <[relation := relation]> tmp) ∅ l
          = explicit_form l) as Heq.
  { apply map_eq. intros k.
    rewrite lookup_foldl_insert_self, lookup_explicit_form, lookup_empty. done. }
  rewrite !parse_tag_relations_singleton, Heq. done.
Qed.

(** ** The store of tag objects *)

Lemma attr_of_setattr_eq (h : store) o attr v :
  is_Some (h !! o) → attr_of (setattr h o attr v) o attr = Some v.
Proof.
  intros [t Ht]. unfold attr_of, setattr.
  rewrite list_lookup_alter_eq, Ht. simpl. apply lookup_insert_eq.
Qed.

Lemma attr_of_setattr_ne (h : store) o attr v o' attr' :
  o ≠ o' ∨ attr ≠ attr' →
  attr_of (setattr h o attr v) o' attr' = attr_of h o' attr'.
Proof.
  intros Hne. unfold attr_of, setattr.
  destruct (decide (o = o')) as [<-|Ho].
  - rewrite list_lookup_alter_eq. destruct (h !! o) as [t|]; [|done].
    simpl. apply lookup_insert_ne. tauto.
  - by rewrite list_lookup_alter_ne.
Qed.

Lemma setattr_same (h : store) o attr v :
  attr_of h o attr = Some v → setattr h o attr v = h.
Proof.
  unfold attr_of, setattr. intros Hv. apply list_eq. intros i.
  rewrite list_lookup_alter. case_decide as Hi; [subst i|done].
  destruct (h !! o) as [t|]; [|done]. simpl in *. by rewrite insert_id.
Qed.

Lemma attr_of_is_Some (h : store) o attr v :
  attr_of h o attr = Some v → is_Some (h !! o).
Proof. unfold attr_of. destruct (h !! o); [eauto|done]. Qed.

Lemma get_relations_Ok (h : store) o attr d :
  get_relations h o attr = Ok d ↔ attr_of h o attr = Some (VRelations d).
Proof.
  unfold get_relations, getattr.
  destruct (attr_of h o attr) as [[]|]; simpl; split; intros H;
    by simplify_eq.
Qed.

Lemma is_tag_setattr_relations (h : store) o attr d o' :
  attr = "in_relations" ∨ attr = "out_relations" →
  is_tag h o' → is_tag (setattr h o attr (VRelations d)) o'.
Proof.
  intros Hattr (name & rs & ins & outs & Hn & Hr & Hi & Ho).
  assert (is_Some (h !! o')) as Hsome by eauto using attr_of_is_Some.
  destruct (decide (o = o')) as [->|Hne].
  - destruct Hattr as [-> | ->].
    + exists name, rs, d, outs.
      rewrite attr_of_setattr_eq by done.
      rewrite !attr_of_setattr_ne by (right; done). done.
    + exists name, rs, ins, d.
      rewrite attr_of_setattr_eq by done.
      rewrite !attr_of_setattr_ne by (right; done). done.
  - exists name, rs, ins, outs.
    rewrite !attr_of_setattr_ne by (left; done). done.
Qed.

(** ** Relations between tags *)

Lemma create_relation_elem (self : ref) relation_name d :
  ∃ l, Tag.__create_relation self relation_name d !! relation_name = Some l
       ∧ self ∈ l.
Proof.
  unfold Tag.__create_relation.
  set (d' := if bool_decide (relation_name ∈ dom d) then d
             else <[relation_name := []]> d).
  case_bool_decide as Hin.
  - destruct (d' !! relation_name) as [l|] eqn:Hl; simpl in Hin.
    + eauto.
    + by apply elem_of_nil in Hin.
  - eexists. rewrite lookup_insert_eq. split; [done|].
    apply elem_of_app. right. apply elem_of_cons. by left.
Qed.

Lemma create_relation_idempotent (self : ref) relation_name d :
  Tag.__create_relation self relation_name
    (Tag.__create_relation self relation_name d)
  = Tag.__create_relation self relation_name d.
Proof.
  destruct (create_relation_elem self relation_name d) as (l & Hl & Hin).
  set (d1 := Tag.__create_relation self relation_name d) in *.
  unfold Tag.__create_relation at 1.
  rewrite (bool_decide_true (relation_name ∈ dom d1))
    by (apply elem_of_dom; eauto).
  rewrite Hl. simpl. by rewrite bool_decide_true.
Qed.

Lemma create_relation_NoDup (self : ref) relation_name d :
  NoDup (default [] (d !! relation_name)) →
  NoDup (default [] (Tag.__create_relation self relation_name d !! relation_name)).
Proof.
  intros Hd. unfold Tag.__create_relation.
  set (d' := if bool_decide (relation_name ∈ dom d) then d
             else <[relation_name := []]> d).
  assert (default [] (d' !! relation_name) = default [] (d !! relation_name))
    as Hsame.
  { subst d'. case_bool_decide as Hdom; [done|].
    apply not_elem_of_dom in Hdom. by rewrite lookup_insert_eq, Hdom. }
  rewrite Hsame. case_bool_decide as Hin; [by rewrite Hsame|].
  rewrite lookup_insert_eq. simpl. apply NoDup_app. split_and!.
  - done.
  - intros x Hx Hx'. apply elem_of_cons in Hx' as [->|Hx']; [done|].
    by apply elem_of_nil in Hx'.
  - apply NoDup_singleton.
Qed.

(** C2. Relating tag [self] to tag [tag] under a relation name succeeds on
    tags, puts [tag] in the out-relations of [self] and [self] in the
    in-relations of [tag] under that name, and doing it once more leaves
    the whole store, hence both lists, as they are. *)
Theorem relate_to_tag_edge (h : store) (self tag : ref) (relation_name : string) :
  is_tag h self → is_tag h tag →
  ∃ h',
    Tag.relate_to_tag self tag relation_name h = Ok h' ∧
    tag ∈ bucket h' self "out_relations" relation_name ∧
    self ∈ bucket h' tag "in_relations" relation_name ∧
    Tag.relate_to_tag self tag relation_name h' = Ok h' ∧
    (NoDup (bucket h self "out_relations" relation_name) →
     NoDup (bucket h' self "out_relations" relation_name)) ∧
    (NoDup (bucket h tag "in_relations" relation_name) →
     NoDup (bucket h' tag "in_relations" relation_name)).
Proof.
  intros (n1 & r1 & i1 & o1 & Hn1 & Hr1 & Hi1 & Ho1)
         (n2 & r2 & i2 & o2 & Hn2 & Hr2 & Hi2 & Ho2).
  assert (is_Some (h !! self)) as Hself by eauto using attr_of_is_Some.
  assert (is_Some (h !! tag)) as Htag by eauto using attr_of_is_Some.
  set (out' := Tag.__create_relation tag relation_name o1).
  set (h1 := setattr h self "out_relations" (VRelations out')).
  assert (attr_of h1 tag "in_relations" = Some (VRelations i2)) as Hi2'.
  { subst h1. rewrite attr_of_setattr_ne by (right; done). done. }
  set (in' := Tag.__create_relation self relation_name i2).
  set (h2 := setattr h1 tag "in_relations" (VRelations in')).
  assert (is_Some (h1 !! tag)) as Htag1 by eauto using attr_of_is_Some.
  assert (attr_of h2 self "out_relations" = Some (VRelations out')) as Hout2.
  { subst h2 h1. rewrite attr_of_setattr_ne by (right; done).
    by rewrite attr_of_setattr_eq. }
  assert (attr_of h2 tag "in_relations" = Some (VRelations in')) as Hin2.
  { subst h2. by rewrite attr_of_setattr_eq. }
  assert (Tag.relate_to_tag self tag relation_name h = Ok h2) as Hrun.
  { unfold Tag.relate_to_tag.
    rewrite (proj2 (get_relations_Ok h self "out_relations" o1) Ho1). simpl.
    fold out' h1.
    rewrite (proj2 (get_relations_Ok h1 tag "in_relations" i2) Hi2'). done. }
  exists h2. split_and!; [done| | | | |].
  - unfold bucket. rewrite Hout2.
    destruct (create_relation_elem tag relation_name o1) as (l & Hl & Hin).
    fold out' in Hl. by rewrite Hl.
  - unfold bucket. rewrite Hin2.
    destruct (create_relation_elem self relation_name i2) as (l & Hl & Hin).
    fold in' in Hl. by rewrite Hl.
  - unfold Tag.relate_to_tag.
    rewrite (proj2 (get_relations_Ok h2 self "out_relations" out') Hout2).
    simpl.
    assert (Tag.__create_relation tag relation_name out' = out') as ->
      by apply create_relation_idempotent.
    rewrite (setattr_same h2 self "out_relations" _ Hout2).
    rewrite (proj2 (get_relations_Ok h2 tag "in_relations" in') Hin2).
    simpl.
    assert (Tag.__create_relation self relation_name in' = in') as ->
      by apply create_relation_idempotent.
    by rewrite (setattr_same h2 tag "in_relations" _ Hin2).
  - unfold bucket. rewrite Hout2, Ho1. apply create_relation_NoDup.
  - unfold bucket. rewrite Hin2, Hi2. apply create_relation_NoDup.
Qed.

Lemma is_tag_init (h : store) (o : ref) (name : string) :
  h !! o = Some (Tag.__init__ name) → is_tag h o.
Proof.
  intros Ho. exists name, [], ∅, ∅. unfold attr_of. rewrite Ho. done.
Qed.

Lemma relate_to_tag_edge_witness :
  is_tag store_two_tags 0 ∧ is_tag store_two_tags 1 ∧
  ∃ h',
    Tag.relate_to_tag 0 1 "parent" store_two_tags = Ok h' ∧
    1 ∈ bucket h' 0 "out_relations" "parent" ∧
    0 ∈ bucket h' 1 "in_relations" "parent" ∧
    Tag.relate_to_tag 0 1 "parent" h' = Ok h' ∧
    (NoDup (bucket store_two_tags 0 "out_relations" "parent") →
     NoDup (bucket h' 0 "out_relations" "parent")) ∧
    (NoDup (bucket store_two_tags 1 "in_relations" "parent") →
     NoDup (bucket h' 1 "in_relations" "parent")).
Proof.
  assert (is_tag store_two_tags 0) as H0 by (by eapply is_tag_init).
  assert (is_tag store_two_tags 1) as H1 by (by eapply is_tag_init).
  split; [exact H0|]. split; [exact H1|].
  exact (relate_to_tag_edge store_two_tags 0 1 "parent" H0 H1).
Defined.

Example relate_to_tag_twice :
  (h1 <- Tag.relate_to_tag 0 1 "parent" store_two_tags;;
   h2 <- Tag.relate_to_tag 0 1 "parent" h1;;
   Ok (bucket h2 0 "out_relations" "parent",
       bucket h2 1 "in_relations" "parent",
       bucket h2 0 "in_relations" "parent"))
  = Ok ([1], [0], []).
Proof. vm_compute. reflexivity. Qed.

(** ** Merging the tag metadata of the configuration *)

Lemma attr_of_alter_update (h : store) (meta : gmap string yaml) r r' k :
  attr_of (alter (λ o, Expando_update o meta) r h) r' k
  = if decide (r = r' ∧ is_Some (h !! r))
    then match meta !! k with
         | Some y => Some (VMeta y)
         | None => attr_of h r' k
         end
    else attr_of h r' k.
Proof.
  unfold attr_of. rewrite list_lookup_alter.
  destruct (decide (r = r')) as [<-|Hne].
  - destruct (h !! r) as [t|] eqn:Ht; simpl.
    + rewrite decide_True by eauto.
      unfold Expando_update. rewrite lookup_union, lookup_fmap.
      destruct (meta !! k); simpl; [|by rewrite (left_id None _)].
      by destruct (t !! k).
    + rewrite decide_False; [done|]. intros [_ []]. done.
  - rewrite decide_False; [done|]. tauto.
Qed.

(** The dictionary that is merged: [meta] without the two protected keys. *)
Lemma lookup_stripped (meta : gmap string yaml) k :
  (let meta :=
     if bool_decide ("resources" ∈ dom meta) then delete "resources" meta
     else meta in
   if bool_decide ("name" ∈ dom meta) then delete "name" meta else meta) !! k
  = if decide (k = "name" ∨ k = "resources") then None else meta !! k.
Proof.
  cbv zeta.
  set (m1 := if bool_decide ("resources" ∈ dom meta)
             then delete "resources" meta else meta).
  assert (∀ j, m1 !! j = if decide (j = "resources") then None else meta !! j)
    as Hm1.
  { intros j. subst m1. case_bool_decide as Hdom.
    - rewrite lookup_delete. by repeat case_decide.
    - apply not_elem_of_dom in Hdom. case_decide; by subst. }
  assert ((if bool_decide ("name" ∈ dom m1) then delete "name" m1 else m1) !! k
          = if decide (k = "name") then None else m1 !! k) as ->.
  { case_bool_decide as Hdom.
    - rewrite lookup_delete. by repeat case_decide.
    - apply not_elem_of_dom in Hdom. case_decide; by subst. }
  rewrite Hm1. repeat case_decide; try done; tauto.
Qed.

Lemma metadata_step_unknown tags (h : store) tagname meta :
  tags !! tagname = None → metadata_step tags h (tagname, meta) = h.
Proof. intros Hnone. unfold metadata_step. by rewrite Hnone. Qed.

Lemma metadata_step_attr tags (h : store) tagname meta r k :
  attr_of (metadata_step tags h (tagname, meta)) r k
  = if decide (tags !! tagname = Some r ∧ is_Some (h !! r)
               ∧ ¬ (k = "name" ∨ k = "resources"))
    then match meta !! k with
         | Some y => Some (VMeta y)
         | None => attr_of h r k
         end
    else attr_of h r k.
Proof.
  unfold metadata_step. destruct (tags !! tagname) as [tag|] eqn:Htag.
  - rewrite attr_of_alter_update, lookup_stripped.
    destruct (decide (tag = r ∧ is_Some (h !! tag))) as [[-> Hsome]|Hno].
    + destruct (decide (k = "name" ∨ k = "resources")) as [Hk|Hk].
      * rewrite decide_False by tauto. done.
      * rewrite decide_True by done. done.
    + rewrite decide_False; [done|]. intros ([= ->] & ? & ?). tauto.
  - rewrite decide_False; [done|]. intros [? _]. done.
Qed.

Lemma metadata_step_length tags (h : store) item :
  length (metadata_step tags h item) = length h.
Proof.
  destruct item as [tagname meta]. unfold metadata_step.
  destruct (tags !! tagname); [apply length_alter|done].
Qed.

Lemma metadata_fold_length tags l (h : store) :
  length (foldl (metadata_step tags) h l) = length h.
Proof.
  revert h. induction l as [|item l IH]; intros h; [done|].
  cbn [foldl]. by rewrite IH, metadata_step_length.
Qed.

(** Whatever differs after the loop was written by an entry of the loop. *)
Lemma metadata_fold_attr tags (l : list (string * gmap string yaml)) (h : store) r k :
  attr_of (foldl (metadata_step tags) h l) r k = attr_of h r k ∨
  ∃ tagname meta y,
    (tagname, meta) ∈ l ∧ tags !! tagname = Some r ∧
    k ≠ "name" ∧ k ≠ "resources" ∧ meta !! k = Some y ∧
    attr_of (foldl (metadata_step tags) h l) r k = Some (VMeta y).
Proof.
  revert h. induction l as [|[tagname meta] l IH]; intros h; [by left|].
  cbn [foldl]. destruct (IH (metadata_step tags h (tagname, meta)))
    as [Hsame|(tn & m & y & Hin & Htag & Hk1 & Hk2 & Hm & Hattr)].
  - rewrite Hsame, metadata_step_attr.
    case_decide as Hd; [|by left].
    destruct (meta !! k) as [y|] eqn:Hy; [|by left].
    right. exists tagname, meta, y. split_and!; try tauto.
    apply elem_of_cons. by left.
  - right. exists tn, m, y. split_and!; try done.
    apply elem_of_cons. by right.
Qed.

Lemma metadata_fold_frame tags (l : list (string * gmap string yaml)) (h : store) r :
  (∀ tagname meta, (tagname, meta) ∈ l → tags !! tagname ≠ Some r) →
  ∀ k, attr_of (foldl (metadata_step tags) h l) r k = attr_of h r k.
Proof.
  intros Hother k.
  destruct (metadata_fold_attr tags l h r k)
    as [?|(tn & m & y & Hin & Htag & _)]; [done|].
  by destruct (Hother tn m Hin).
Qed.

Lemma metadata_fold_unknown tags (l : list (string * gmap string yaml)) (h : store) :
  (∀ tagname meta, (tagname, meta) ∈ l → tags !! tagname = None) →
  foldl (metadata_step tags) h l = h.
Proof.
  revert h. induction l as [|[tagname meta] l IH]; intros h Hl; [done|].
  cbn [foldl]. rewrite metadata_step_unknown.
  - apply IH. intros tn m Hin. apply (Hl tn m), elem_of_cons. by right.
  - apply (Hl tagname meta), elem_of_cons. by left.
Qed.

Lemma metadata_fold_gain tags (l : list (string * gmap string yaml)) (h : store)
    tagname meta r k y :
  NoDup l.*1 → (tagname, meta) ∈ l →
  tags !! tagname = Some r → is_Some (h !! r) →
  (∀ other m, (other, m) ∈ l → other ≠ tagname → tags !! other ≠ Some r) →
  k ≠ "name" → k ≠ "resources" → meta !! k = Some y →
  attr_of (foldl (metadata_step tags) h l) r k = Some (VMeta y).
Proof.
  intros Hnodup Hin Htag Hsome Hother Hk1 Hk2 Hy.
  apply list_elem_of_split in Hin as (l1 & l2 & ->).
  rewrite fmap_app, fmap_cons in Hnodup.
  apply NoDup_app in Hnodup as (_ & Hl1 & Hl2).
  apply NoDup_cons in Hl2 as [Hfresh _].
  rewrite foldl_app. cbn [foldl].
  rewrite metadata_fold_frame.
  - rewrite metadata_step_attr, decide_True, Hy; [done|].
    split_and!; [done| |tauto].
    apply lookup_lt_is_Some. rewrite metadata_fold_length.
    by apply lookup_lt_is_Some.
  - intros other m Hin. apply (Hother other m).
    + apply elem_of_app. right. apply elem_of_cons. by right.
    + intros ->. apply Hfresh. simpl.
      apply list_elem_of_fmap. by exists (tagname, m).
Qed.

(** C8. Merging the tag metadata of the configuration keeps every tag
    object, leaves [name] and [resources] of every tag as they were, and
    changes an attribute only to a value that the configuration gives for
    that key under a tag name of the registry; a tag named by one entry
    gets every unprotected key of that entry; and when no configured tag
    name is in the registry the store is unchanged. *)
Theorem process_tag_metadata_merge (site : Site) (tags : gmap string ref)
    (h : store) :
  length (_process_tag_metadata site tags h) = length h ∧
  (∀ r, attr_of (_process_tag_metadata site tags h) r "name"
        = attr_of h r "name" ∧
        attr_of (_process_tag_metadata site tags h) r "resources"
        = attr_of h r "resources") ∧
  (∀ r k,
     attr_of (_process_tag_metadata site tags h) r k = attr_of h r k ∨
     ∃ tagname meta y,
       config_tag_meta site !! tagname = Some meta ∧
       tags !! tagname = Some r ∧
       k ≠ "name" ∧ k ≠ "resources" ∧ meta !! k = Some y ∧
       attr_of (_process_tag_metadata site tags h) r k = Some (VMeta y)) ∧
  (∀ tagname meta r k y,
     config_tag_meta site !! tagname = Some meta →
     tags !! tagname = Some r → is_Some (h !! r) →
     (∀ other, is_Some (config_tag_meta site !! other) → other ≠ tagname →
               tags !! other ≠ Some r) →
     k ≠ "name" → k ≠ "resources" → meta !! k = Some y →
     attr_of (_process_tag_metadata site tags h) r k = Some (VMeta y)) ∧
  ((∀ tagname, is_Some (config_tag_meta site !! tagname) →
               tags !! tagname = None) →
   _process_tag_metadata site tags h = h).
Proof.
  unfold _process_tag_metadata. cbv zeta.
  set (tag_meta := config_tag_meta site).
  assert (∀ r k,
    attr_of (foldl (metadata_step tags) h (map_to_list tag_meta)) r k
    = attr_of h r k ∨
    ∃ tagname meta y,
      tag_meta !! tagname = Some meta ∧ tags !! tagname = Some r ∧
      k ≠ "name" ∧ k ≠ "resources" ∧ meta !! k = Some y ∧
      attr_of (foldl (metadata_step tags) h (map_to_list tag_meta)) r k
      = Some (VMeta y)) as Hchange.
  { intros r k.
    destruct (metadata_fold_attr tags (map_to_list tag_meta) h r k)
      as [?|(tn & m & y & Hin & ?)]; [by left|].
    right. exists tn, m, y. split; [|done]. by apply elem_of_map_to_list. }
  split_and!.
  - apply metadata_fold_length.
  - intros r. split.
    + destruct (Hchange r "name") as [?|(? & ? & ? & ? & ? & ? & ?)]; done.
    + destruct (Hchange r "resources")
        as [?|(? & ? & ? & ? & ? & ? & ? & ?)]; done.
  - exact Hchange.
  - intros tagname meta r k y Hmeta Htag Hsome Hother Hk1 Hk2 Hy.
    eapply metadata_fold_gain; eauto.
    + apply NoDup_fst_map_to_list.
    + by apply elem_of_map_to_list.
    + intros other m Hin%elem_of_map_to_list Hne. apply Hother; eauto.
  - intros Hnone. apply metadata_fold_unknown.
    intros tn m Hin%elem_of_map_to_list. apply Hnone. eauto.
Qed.

(** The metadata [{name: y, resources: [], color: red}] for tag [x]: the tag
    gets [color] and keeps its name and resources; the entry for the
    unknown tag [ghost] changes nothing. *)
Example process_tag_metadata_color :
  let h := _process_tag_metadata site_tag_meta {[ "x" := 0 ]} [Tag.__init__ "x"] in
  attr_of h 0 "name" = Some (VStr "x") ∧
  attr_of h 0 "resources" = Some (VResources []) ∧
  attr_of h 0 "color" = Some (VMeta (YScalar "red")) ∧
  length h = 1.
Proof. vm_compute. done. Qed.

(** ** Relations declared on a resource *)

Lemma relate_to_tag_Ok (h : store) (self tag : ref) (relation_name : string) :
  is_tag h self → is_tag h tag →
  ∃ d1 d2,
    Tag.relate_to_tag self tag relation_name h
    = Ok (setattr (setattr h self "out_relations" (VRelations d1))
            tag "in_relations" (VRelations d2)).
Proof.
  intros (n1 & r1 & i1 & o1 & Hn1 & Hr1 & Hi1 & Ho1)
         (n2 & r2 & i2 & o2 & Hn2 & Hr2 & Hi2 & Ho2).
  unfold Tag.relate_to_tag.
  rewrite (proj2 (get_relations_Ok h self "out_relations" o1) Ho1). simpl.
  set (h1 := setattr h self "out_relations" _).
  assert (attr_of h1 tag "in_relations" = Some (VRelations i2)) as Hi2'.
  { subst h1. rewrite attr_of_setattr_ne by (right; done). done. }
  rewrite (proj2 (get_relations_Ok h1 tag "in_relations" i2) Hi2'). simpl.
  eauto.
Qed.

Lemma tag_str_setattr (h : store) o attr v o' :
  attr ≠ "name" → Tag.__str__ (setattr h o attr v) o' = Tag.__str__ h o'.
Proof.
  intros Hattr. unfold Tag.__str__, getattr.
  rewrite attr_of_setattr_ne by (right; done). done.
Qed.

Lemma attr_of_app_l (h : store) (t : TagObj) o attr :
  is_Some (h !! o) → attr_of (h ++ [t]) o attr = attr_of h o attr.
Proof.
  intros Hsome%lookup_lt_is_Some. unfold attr_of. by rewrite lookup_app_l.
Qed.

Lemma is_tag_is_Some (h : store) o : is_tag h o → is_Some (h !! o).
Proof. intros (? & ? & ? & ? & Hn & _). eauto using attr_of_is_Some. Qed.

Lemma is_tag_app (h : store) (t : TagObj) o : is_tag h o → is_tag (h ++ [t]) o.
Proof.
  intros Htag. pose proof (is_tag_is_Some h o Htag) as Hsome.
  destruct Htag as (n & r & i & out & Hn & Hr & Hi & Ho).
  exists n, r, i, out. by rewrite !attr_of_app_l.
Qed.

Lemma is_tag_new (h : store) name : is_tag (h ++ [Tag.__init__ name]) (length h).
Proof. eapply is_tag_init. by apply list_lookup_middle. Qed.

(** One relation: the step succeeds, keeps the build well formed, keeps the
    source tag and its name, and binds the walker named after the target to
    the source tag. *)
Lemma relation_step_Ok (tag : ref) (b : Build) (item : string * string) :
  is_tag (heap b) tag → wf_build b →
  ∃ b',
    relation_step tag b item = Ok b' ∧
    is_tag (heap b') tag ∧ wf_build b' ∧
    Tag.__str__ (heap b') tag = Tag.__str__ (heap b) tag ∧
    node_methods b' = <[walker_name item.2 := tag]> (node_methods b).
Proof.
  intros Htag Hwf. destruct item as [relation_name related_tag_name].
  unfold relation_step.
  destruct (tags b !! related_tag_name) as [related_tag|] eqn:Hrel.
  - pose proof (Hwf _ _ Hrel) as Hrelated. cbn [add_method heap tags node_methods].
    destruct (relate_to_tag_Ok (heap b) tag related_tag relation_name Htag Hrelated)
      as (d1 & d2 & ->).
    eexists. split; [done|]. cbn [heap tags node_methods snd]. split_and!.
    + by do 2 (apply is_tag_setattr_relations; [tauto|]).
    + intros n r Hn. cbn [heap tags] in *.
      do 2 (apply is_tag_setattr_relations; [tauto|]).
      by apply (Hwf n r).
    + by rewrite !tag_str_setattr.
    + done.
  - unfold Tag.new. cbn [add_method heap tags node_methods].
    pose proof (is_tag_app (heap b) (Tag.__init__ related_tag_name) tag Htag)
      as Htag'.
    pose proof (is_tag_new (heap b) related_tag_name) as Hnew.
    destruct (relate_to_tag_Ok _ tag (length (heap b)) relation_name Htag' Hnew)
      as (d1 & d2 & ->).
    eexists. split; [done|]. cbn [heap tags node_methods snd]. split_and!.
    + by do 2 (apply is_tag_setattr_relations; [tauto|]).
    + intros n r Hn. cbn [heap tags] in *.
      do 2 (apply is_tag_setattr_relations; [tauto|]).
      apply lookup_insert_Some in Hn as [[_ <-]|[_ Hn]]; [done|].
      apply is_tag_app. by apply (Hwf n r).
    + rewrite !tag_str_setattr by done. unfold Tag.__str__, getattr.
      rewrite attr_of_app_l; [done|]. by apply is_tag_is_Some.
    + done.
Qed.

Lemma create_tag_relations_loop (tag : ref) (l : list (string * string)) (b : Build) :
  is_tag (heap b) tag → wf_build b →
  ∃ b',
    for_each (relation_step tag) b l = Ok b' ∧
    is_tag (heap b') tag ∧ wf_build b' ∧
    Tag.__str__ (heap b') tag = Tag.__str__ (heap b) tag ∧
    ∀ name,
      (node_methods b !! name = Some tag ∨
       ∃ item, item ∈ l ∧ name = walker_name item.2) →
      node_methods b' !! name = Some tag.
Proof.
  revert b. induction l as [|item l IH]; intros b Htag Hwf.
  - exists b. split_and!; try done.
    intros name [?|(item & Hin & _)]; [done|]. by apply elem_of_nil in Hin.
  - destruct (relation_step_Ok tag b item Htag Hwf)
      as (b1 & Hstep & Htag1 & Hwf1 & Hstr1 & Hmeth1).
    destruct (IH b1 Htag1 Hwf1) as (b' & Hloop & Htag' & Hwf' & Hstr' & Hmeth').
    exists b'. cbn [for_each]. rewrite Hstep. simpl. split_and!; try done.
    + by rewrite Hstr'.
    + intros name Hname. apply Hmeth'. rewrite Hmeth1.
      destruct (decide (name = walker_name item.2)) as [->|Hne].
      * left. apply lookup_insert_eq.
      * rewrite lookup_insert_ne by done.
        destruct Hname as [?|(item' & Hin & ->)]; [by left|].
        apply elem_of_cons in Hin as [->|Hin]; [done|]. right. eauto.
Qed.

Lemma split_without_sep (sep : ascii) (s : string) :
  occurs sep s = false → split sep s = [s].
Proof.
  induction s as [|c s IH]; [done|].
  cbn [occurs split]. intros [Hc Hs]%orb_false_elim.
  rewrite Hc, (IH Hs). done.
Qed.

Lemma wf_build_post : wf_build build_post.
Proof.
  intros tagname tag Hin. cbn [build_post tags] in Hin.
  apply lookup_singleton_Some in Hin as [_ <-]. by eapply is_tag_init.
Qed.

(** C3. The declaration [{post: {parent: author}}] on a build that has no
    tag [author]: the new tag named [author] is stored under the relation
    name [parent], and the registry has no entry [author].  When the
    resource goes on to declare the plain tag [author], a second tag object
    of that name is made. *)
Theorem create_tag_relations_registry_key :
  (∃ b',
     _create_tag_relations 0 build_post {[ "parent" := "author" ]} = Ok b' ∧
     tags b' !! "author" = None ∧
     tags b' !! "parent" = Some 1 ∧
     Tag.__str__ (heap b') 1 = Ok "author") ∧
  (∃ b' resource',
     _process_tags_in_resource resource_post (mkBuild [] ∅ ∅)
     = Ok (b', resource') ∧
     tags b' !! "parent" = Some 1 ∧ tags b' !! "author" = Some 2 ∧
     Tag.__str__ (heap b') 1 = Ok "author" ∧
     Tag.__str__ (heap b') 2 = Ok "author" ∧
     bucket (heap b') 0 "out_relations" "parent" = [1]).
Proof.
  split.
  - eexists. split; [vm_compute; reflexivity|]. vm_compute. done.
  - do 2 eexists. split; [vm_compute; reflexivity|]. vm_compute. done.
Qed.

(** With the names equal, as in the list shorthand, the new tag is stored
    under its own name. *)
Lemma relation_step_registry (tag : ref) (b b' : Build) relation_name related_tag_name :
  tags b !! related_tag_name = None →
  relation_step tag b (relation_name, related_tag_name) = Ok b' →
  tags b' = <[relation_name := length (heap b)]> (tags b).
Proof.
  intros Hnone. unfold relation_step. rewrite Hnone. unfold Tag.new.
  cbn [add_method heap tags node_methods].
  destruct (Tag.relate_to_tag _ _ _ _); simpl; [done|]. by intros [= <-].
Qed.

(** C4, as amended.  On a well-formed build, creating the relations of the
    tag [tag] named [name] succeeds, and right after that call the walker
    named after each relation's target is bound to [tag], the source:
    calling it then yields the resources whose tag list contains every
    [+]-separated piece of [name], which are the resources tagged [name]
    when [name] has no [+].  The binding lasts until the next [add_method]
    under the same name: after a later registration the walker filters by
    the tag registered last. *)
Theorem create_tag_relations_walker (tag : ref) (b : Build)
    (relations : gmap string string) (site : Site) (name : string) :
  is_tag (heap b) tag → wf_build b → Tag.__str__ (heap b) tag = Ok name →
  ∃ b',
    _create_tag_relations tag b relations = Ok b' ∧
    ∀ relation_name related_tag_name,
      relations !! relation_name = Some related_tag_name →
      node_methods b' !! walker_name related_tag_name = Some tag ∧
      call_node_method b' site (walker_name related_tag_name)
      = (walker <- get_tagger_sort_method site;;
         Ok (List.filter (tagged_with_all (split plus name)) walker)) ∧
      (occurs plus name = false →
       call_node_method b' site (walker_name related_tag_name)
       = (walker <- get_tagger_sort_method site;;
          Ok (List.filter (tagged_with_all [name]) walker))) ∧
      (∀ later,
         call_node_method
           (add_method (walker_name related_tag_name) later b') site
           (walker_name related_tag_name)
         = (s <- Tag.__str__ (heap b') later;;
            walk_resources_tagged_with site s)).
Proof.
  intros Htag Hwf Hname. unfold _create_tag_relations.
  destruct (create_tag_relations_loop tag (map_to_list relations) b Htag Hwf)
    as (b' & Hloop & _ & _ & Hstr & Hmeth).
  exists b'. split; [done|].
  intros relation_name related_tag_name Hrel.
  assert (node_methods b' !! walker_name related_tag_name = Some tag) as Hbound.
  { apply Hmeth. right. exists (relation_name, related_tag_name).
    split; [|done]. by apply elem_of_map_to_list. }
  assert (call_node_method b' site (walker_name related_tag_name)
          = (walker <- get_tagger_sort_method site;;
             Ok (List.filter (tagged_with_all (split plus name)) walker)))
    as Hcall.
  { unfold call_node_method. rewrite Hbound, Hstr, Hname. simpl.
    unfold walk_resources_tagged_with.
    destruct (get_tagger_sort_method site) as [e|walker]; [done|].
    simpl. by rewrite walk_loop_filter. }
  split_and!; [done|done| |].
  - intros Hplus. by rewrite Hcall, split_without_sep.
  - intros later. unfold call_node_method, add_method.
    cbn [node_methods heap]. by rewrite lookup_insert_eq.
Qed.

Lemma create_tag_relations_walker_witness :
  is_tag (heap build_post) 0 ∧ wf_build build_post ∧
  Tag.__str__ (heap build_post) 0 = Ok "post" ∧
  ∃ b',
    _create_tag_relations 0 build_post {[ "parent" := "author" ]} = Ok b' ∧
    node_methods b' !! walker_name "author" = Some 0 ∧
    call_node_method b' site_post_author (walker_name "author")
    = Ok [resource_tagged_post].
Proof.
  assert (is_tag (heap build_post) 0) as Htag by (by eapply is_tag_init).
  assert (Tag.__str__ (heap build_post) 0 = Ok "post") as Hname
    by (vm_compute; reflexivity).
  split; [exact Htag|]. split; [exact wf_build_post|]. split; [exact Hname|].
  destruct (create_tag_relations_walker 0 build_post {[ "parent" := "author" ]}
              site_post_author "post" Htag wf_build_post Hname)
    as (b' & Hrun & Hall).
  destruct (Hall "parent" "author" (lookup_singleton_eq _ _))
    as (Hbound & Hcall & _).
  exists b'. split; [exact Hrun|]. split; [exact Hbound|].
  rewrite Hcall. vm_compute. reflexivity.
Defined.

(** Two later registrations that replace the binding.  After
    [{post: [author]}] the walker of [author] is bound to the tag [post];
    after [{page: [author]}] on the next resource it is bound to the tag
    [page].  And after [{post: {parent: author}}] followed by the plain
    declaration [author], it is bound to the second tag named [author]. *)
Lemma walker_rebound :
  (∃ b1 r1 b2 r2,
     _process_tags_in_resource resource_post_author (mkBuild [] ∅ ∅)
     = Ok (b1, r1) ∧
     _process_tags_in_resource resource_page_author b1 = Ok (b2, r2) ∧
     tags b1 !! "post" = Some 0 ∧
     node_methods b1 !! walker_name "author" = Some 0 ∧
     tags b2 !! "page" = Some 2 ∧
     node_methods b2 !! walker_name "author" = Some 2) ∧
  (∃ b' r',
     _process_tags_in_resource resource_post (mkBuild [] ∅ ∅) = Ok (b', r') ∧
     tags b' !! "post" = Some 0 ∧ tags b' !! "author" = Some 2 ∧
     Tag.__str__ (heap b') 2 = Ok "author" ∧
     node_methods b' !! walker_name "author" = Some 2).
Proof.
  split.
  - eexists _, _, _, _. split; [vm_compute; reflexivity|].
    split; [vm_compute; reflexivity|]. vm_compute. done.
  - eexists _, _. split; [vm_compute; reflexivity|]. vm_compute. done.
Qed.

(** The tag named [c++] related to [language]: the walker registered as
    [walk_resources_tagged_with_language] is bound to the tag [c++], the one
    resource of the site is tagged [c++], and the walker yields nothing. *)
Lemma create_tag_relations_walker_plus :
  ∃ b',
    _create_tag_relations 0 build_cpp {[ "kind" := "language" ]} = Ok b' ∧
    node_methods b' !! walker_name "language" = Some 0 ∧
    Tag.__str__ (heap b') 0 = Ok "c++" ∧
    get_tagger_sort_method site_cpp = Ok [resource_cpp] ∧
    List.filter (tagged_with_all ["c++"]) [resource_cpp] = [resource_cpp] ∧
    call_node_method b' site_cpp (walker_name "language") = Ok [] ∧
    call_node_method b' site_cpp (walker_name "language")
    ≠ (walker <- get_tagger_sort_method site_cpp;;
       Ok (List.filter (tagged_with_all ["c++"]) walker)).
Proof.
  eexists. split; [vm_compute; reflexivity|].
  split_and!; try (vm_compute; reflexivity).
  vm_compute. discriminate.
Qed.

(** ** Archives *)

Lemma string_app_cons (a : ascii) (s t : string) :
  String a s ++ t = String a (s ++ t).
Proof. reflexivity. Qed.

Lemma string_length_app (s t : string) :
  String.length (s ++ t) = String.length s + String.length t.
Proof.
  induction s as [|a s IH]; [done|].
  rewrite string_app_cons. simpl. by rewrite IH.
Qed.

Lemma string_app_inj_r (suffix s1 s2 : string) :
  s1 ++ suffix = s2 ++ suffix → s1 = s2.
Proof.
  revert s2. induction s1 as [|a s1 IH]; intros [|c s2] Heq; [done| | |].
  - apply (f_equal String.length) in Heq.
    rewrite !string_length_app in Heq. simpl in Heq. lia.
  - apply (f_equal String.length) in Heq.
    rewrite !string_length_app in Heq. simpl in Heq. lia.
  - rewrite !string_app_cons in Heq. injection Heq as -> Heq.
    f_equal. by apply IH.
Qed.

Lemma archive_path_inj (target extension t1 t2 : string) :
  archive_path target t1 extension = archive_path target t2 extension →
  t1 = t2.
Proof.
  unfold archive_path, child. intros Heq.
  apply (inj (String.app target)) in Heq.
  apply (inj (String.app "/")) in Heq.
  by apply string_app_inj_r in Heq.
Qed.

Section ArchiveProperties.

Variable yaml_dump : gmap string yaml → string.
Variable folder_name : string → string.
Variables source target extension template meta_text : string.

Let step := archive_step folder_name source target extension template meta_text.
Let path := λ tagname, archive_path target tagname extension.
Let text := λ tagname,
  strip (archive_text tagname (folder_name source) template meta_text).

Lemma archive_step_files (w : World) (item : string * ref) p :
  files (step w item) !! p
  = if decide (p = path item.1) then Some (text item.1) else files w !! p.
Proof.
  destruct item as [tagname tag]. unfold step, archive_step. cbn [files fst].
  case_decide as Hp.
  - subst p. apply lookup_insert_eq.
  - rewrite lookup_insert_ne by done. by rewrite lookup_delete_ne.
Qed.

Lemma archive_loop_other (l : list (string * ref)) (w : World) p :
  (∀ tagname, tagname ∈ l.*1 → p ≠ path tagname) →
  files (foldl step w l) !! p = files w !! p.
Proof.
  revert w. induction l as [|item l IH]; intros w Hp; [done|].
  cbn [foldl]. rewrite IH.
  - rewrite archive_step_files, decide_False; [done|].
    apply Hp. rewrite fmap_cons. apply elem_of_cons. by left.
  - intros tagname Hin. apply Hp. rewrite fmap_cons. apply elem_of_cons.
    by right.
Qed.

Lemma archive_loop_written (l : list (string * ref)) (w : World) tagname :
  tagname ∈ l.*1 → files (foldl step w l) !! path tagname = Some (text tagname).
Proof.
  revert w. induction l as [|item l IH]; intros w Hin.
  - by apply elem_of_nil in Hin.
  - cbn [foldl]. destruct (decide (tagname ∈ l.*1)) as [Hl|Hl]; [by apply IH|].
    rewrite fmap_cons in Hin. apply elem_of_cons in Hin as [->|Hin]; [|done].
    rewrite archive_loop_other.
    + by rewrite archive_step_files, decide_True.
    + intros other Hother Heq. apply archive_path_inj in Heq. by subst.
Qed.

Lemma archive_loop_added (l : list (string * ref)) (w : World) :
  added_resources (foldl step w l) = (added_resources w ++ (path <$> l.*1))%list
  ∧ folders (foldl step w l) = folders w.
Proof.
  revert w. induction l as [|[tagname tag] l IH]; intros w.
  - cbn [foldl]. by rewrite fmap_nil, (right_id [] _).
  - cbn [foldl]. destruct (IH (step w (tagname, tag))) as [-> ->].
    unfold step, archive_step. cbn [added_resources folders].
    rewrite !fmap_cons. cbn [fst]. by rewrite <- (assoc _).
Qed.

End ArchiveProperties.

(** C9. With a [template] key, the archive generator ends without an
    exception; for every tag name of the registry the file
    [target/<tagname>.<extension>] (extension [html] unless configured)
    then holds the archive text of that tag, whatever was there before;
    no other file changes; the files handed to [add_resource] are these
    paths, one per tag name and all different.  Without a [template] key
    the call raises the no-template exception and the world is as before. *)
Theorem create_tag_archive_files
    (yaml_dump : gmap string yaml → string) (folder_name : string → string)
    (source_folder : string) (tags : gmap string ref)
    (config : ArchiveConfig) (w : World) :
  (∀ template, a_template config = Some template →
     ∃ w',
       _create_tag_archive yaml_dump folder_name source_folder tags config w
       = (w', None) ∧
       (∀ tagname, is_Some (tags !! tagname) →
          files w' !! archive_path
                        (child source_folder (default "tags" (a_target config)))
                        tagname (default "html" (a_extension config))
          = Some (strip (archive_text tagname
                           (folder_name (default "" (a_source config)))
                           template (archive_meta_text yaml_dump config)))) ∧
       (∀ p,
          (∀ tagname, is_Some (tags !! tagname) →
             p ≠ archive_path
                   (child source_folder (default "tags" (a_target config)))
                   tagname (default "html" (a_extension config))) →
          files w' !! p = files w !! p) ∧
       added_resources w'
       = (added_resources w ++
          ((λ tagname,
              archive_path
                (child source_folder (default "tags" (a_target config)))
                tagname (default "html" (a_extension config)))
             <$> (map_to_list tags).*1))%list ∧
       NoDup ((λ tagname,
                 archive_path
                   (child source_folder (default "tags" (a_target config)))
                   tagname (default "html" (a_extension config)))
                <$> (map_to_list tags).*1) ∧
       length (map_to_list tags).*1 = size tags) ∧
  (a_template config = None →
   _create_tag_archive yaml_dump folder_name source_folder tags config w
   = (w, Some (TemplateException NoTemplateSpecified))).
Proof.
  unfold _create_tag_archive. split.
  - intros template ->. cbv zeta.
    set (target := child source_folder (default "tags" (a_target config))).
    set (extension := default "html" (a_extension config)).
    set (w0 := if bool_decide (target ∈ folders w) then w
               else mkWorld (files w) ({[target]} ∪ folders w)
                      (added_resources w)).
    assert (files w0 = files w ∧ added_resources w0 = added_resources w)
      as [Hfiles Hadded] by (subst w0; by case_bool_decide).
    assert (∀ tagname, is_Some (tags !! tagname) ↔ tagname ∈ (map_to_list tags).*1)
      as Hkeys.
    { intros tagname. rewrite list_elem_of_fmap. split.
      - intros [tag Htag]. exists (tagname, tag). split; [done|].
        by apply elem_of_map_to_list.
      - intros ([tn tag] & -> & Hin%elem_of_map_to_list). eauto. }
    eexists. split; [done|]. split_and!.
    + intros tagname Htag%Hkeys. by apply archive_loop_written.
    + intros p Hp. rewrite archive_loop_other; [by rewrite Hfiles|].
      intros tagname Hin%Hkeys. by apply Hp.
    + by rewrite (proj1 (archive_loop_added _ _ _ _ _ _ _ _)), Hadded.
    + apply NoDup_fmap_2_strong; [|apply NoDup_fst_map_to_list].
      intros t1 t2 _ _ Heq. by apply archive_path_inj in Heq.
    + by rewrite length_fmap, length_map_to_list.
  - by intros ->.
Qed.

Lemma create_tag_archive_files_witness :
  a_template archive_blog = Some "t.j2" ∧
  a_template archive_without_template = None ∧
  (∃ w',
     _create_tag_archive (λ _, "") id "content" tags_python_go archive_blog
       world_stale = (w', None) ∧
     files w' !! "content/tags/python.html"
     = Some (strip (archive_text "python" "blog" "t.j2" "")) ∧
     added_resources w' = ["content/tags/go.html"; "content/tags/python.html"]) ∧
  _create_tag_archive (λ _, "") id "content" tags_python_go
    archive_without_template world_stale
  = (world_stale, Some (TemplateException NoTemplateSpecified)).
Proof.
  pose proof (create_tag_archive_files (λ _, "") id "content" tags_python_go
                archive_blog world_stale) as [Hwith _].
  pose proof (create_tag_archive_files (λ _, "") id "content" tags_python_go
                archive_without_template world_stale) as [_ Hwithout].
  split; [reflexivity|]. split; [reflexivity|]. split.
  - destruct (Hwith "t.j2" eq_refl) as (w' & Hrun & Hfile & _ & Hadded & _).
    exists w'. split; [exact Hrun|]. split.
    + apply (Hfile "python"). by exists 0.
    + rewrite Hadded. vm_compute. reflexivity.
  - exact (Hwithout eq_refl).
Defined.

(** * Further properties of the walker lookup and of the queries *)

Lemma get_tagger_sort_method_Raise (site : Site) (e : exn) :
  get_tagger_sort_method site = Raise e → e = NameError "self".
Proof.
  unfold get_tagger_sort_method.
  destruct (attrgetter_tagger_sorter (config site)) as [s|];
    match goal with |- context [content site !! ?w] =>
      destruct (content site !! w) end; simpl; unfold Ok, Raise; congruence.
Qed.

Lemma get_tagger_sort_method_lookup (site : Site) :
  get_tagger_sort_method site
  = match content site
          !! match attrgetter_tagger_sorter (config site) with
             | Some s => "walk_resources_sorted_by_" ++ s
             | None => "walk_resources"
             end with
    | Some walker => Ok walker
    | None => Raise (NameError "self")
    end.
Proof.
  unfold get_tagger_sort_method.
  destruct (attrgetter_tagger_sorter (config site)) as [s|]; cbv zeta.
  - change ("walk_resources" ++ "_sorted_by_" ++ s)
      with ("walk_resources_sorted_by_" ++ s).
    by destruct (content site !! ("walk_resources_sorted_by_" ++ s)).
  - by destruct (content site !! "walk_resources").
Qed.

(** X1. The walker lookup returns exactly the enumeration that the content
    holds under the configured walker name, [walk_resources_sorted_by_]
    followed by the sorter when a sorter is configured and [walk_resources]
    otherwise.  When the content has no attribute of that name the lookup
    ends in a [NameError] for [self]: it never raises the template
    exception, and with a sorter configured it never falls back to the
    unsorted [walk_resources]. *)
Theorem get_tagger_sort_method_outcome (site : Site) :
  (∀ msg, get_tagger_sort_method site ≠ Raise (TemplateException msg)) ∧
  (∀ e, get_tagger_sort_method site = Raise e → e = NameError "self") ∧
  (∀ walker,
     get_tagger_sort_method site = Ok walker ↔
     content site
       !! match attrgetter_tagger_sorter (config site) with
          | Some s => "walk_resources_sorted_by_" ++ s
          | None => "walk_resources"
          end = Some walker) ∧
  (∀ s walker,
     attrgetter_tagger_sorter (config site) = Some s →
     content site !! ("walk_resources_sorted_by_" ++ s) = Some walker →
     get_tagger_sort_method site = Ok walker) ∧
  (∀ s, attrgetter_tagger_sorter (config site) = Some s →
     content site !! ("walk_resources_sorted_by_" ++ s) = None →
     get_tagger_sort_method site = Raise (NameError "self")) ∧
  (∀ walker,
     attrgetter_tagger_sorter (config site) = None →
     content site !! "walk_resources" = Some walker →
     get_tagger_sort_method site = Ok walker).
Proof.
  split_and!.
  - intros msg Hmsg. by apply get_tagger_sort_method_Raise in Hmsg.
  - apply get_tagger_sort_method_Raise.
  - intros walker. rewrite get_tagger_sort_method_lookup.
    match goal with |- context [content site !! ?w] =>
      destruct (content site !! w) end; unfold Ok, Raise; split; congruence.
  - intros s walker Hs Hw. by rewrite get_tagger_sort_method_lookup, Hs, Hw.
  - intros s Hs Hnone. by apply (get_tagger_sort_method_missing site s).
  - intros walker Hs Hw. by rewrite get_tagger_sort_method_lookup, Hs, Hw.
Qed.

Lemma get_tagger_sort_method_outcome_witness :
  attrgetter_tagger_sorter (config site_sorted) = Some "kind" ∧
  content site_sorted !! ("walk_resources_sorted_by_" ++ "kind")
  = Some [resource_bac; resource_ab] ∧
  content site_sorted !! "walk_resources" = Some [resource_ab; resource_bac] ∧
  get_tagger_sort_method site_sorted = Ok [resource_bac; resource_ab].
Proof.
  assert (content site_sorted !! ("walk_resources_sorted_by_" ++ "kind")
          = Some [resource_bac; resource_ab]) as Hsorted
    by (vm_compute; reflexivity).
  split; [reflexivity|]. split; [exact Hsorted|].
  split; [vm_compute; reflexivity|].
  exact (proj1 (proj2 (proj2 (proj2 (get_tagger_sort_method_outcome site_sorted))))
           "kind" _ eq_refl Hsorted).
Defined.

Lemma walk_loop_sublist (tags : gset string) (walker : list Resource) :
  walk_loop tags walker `sublist_of` walker.
Proof.
  induction walker as [|resource rest IH]; [constructor|].
  cbn [walk_loop]. destruct (meta_tags resource) as [taglist|].
  - case_bool_decide; by constructor.
  - by constructor.
Qed.

Lemma walk_loop_tagged (tags : gset string) (walker : list Resource) r :
  r ∈ walk_loop tags walker →
  ∃ taglist, meta_tags r = Some taglist ∧ tags ⊆ taglist_set taglist.
Proof.
  induction walker as [|resource rest IH]; cbn [walk_loop].
  - intros Hin. by apply elem_of_nil in Hin.
  - destruct (meta_tags resource) as [taglist|] eqn:Hmeta; [|done].
    case_bool_decide as Hsub; [|done].
    intros [->|Hin]%elem_of_cons; eauto.
Qed.

Lemma walk_resources_tagged_with_Ok (site : Site) (tag : string) l :
  walk_resources_tagged_with site tag = Ok l →
  ∃ walker,
    get_tagger_sort_method site = Ok walker ∧
    l = walk_loop (list_to_set (split plus tag)) walker.
Proof.
  unfold walk_resources_tagged_with.
  destruct (get_tagger_sort_method site) as [e|walker]; simpl; [done|].
  intros [= <-]. eauto.
Qed.

(** X2. What a query yields is a subsequence of the configured
    enumeration: no resource is invented, repeated or reordered, and every
    resource yielded has a tag list. *)
Theorem walk_resources_tagged_with_sublist (site : Site) (tag : string)
    (l : list Resource) :
  walk_resources_tagged_with site tag = Ok l →
  ∃ walker,
    get_tagger_sort_method site = Ok walker ∧
    l `sublist_of` walker ∧
    ∀ r, r ∈ l → is_Some (meta_tags r).
Proof.
  intros (walker & Hwalker & ->)%walk_resources_tagged_with_Ok.
  exists walker. split_and!; [done|apply walk_loop_sublist|].
  intros r (taglist & -> & _)%walk_loop_tagged. eauto.
Qed.

Lemma walk_resources_tagged_with_sublist_witness :
  walk_resources_tagged_with site_plain "a" = Ok [resource_ab; resource_bac] ∧
  ∃ walker,
    get_tagger_sort_method site_plain = Ok walker ∧
    [resource_ab; resource_bac] `sublist_of` walker ∧
    ∀ r, r ∈ [resource_ab; resource_bac] → is_Some (meta_tags r).
Proof.
  assert (walk_resources_tagged_with site_plain "a"
          = Ok [resource_ab; resource_bac]) as H by (vm_compute; reflexivity).
  split; [exact H|].
  exact (walk_resources_tagged_with_sublist site_plain "a" _ H).
Defined.

Lemma split_not_nil (sep : ascii) (s : string) : split sep s ≠ [].
Proof.
  destruct s as [|c s]; cbn [split]; [done|].
  destruct (Ascii.eqb c sep); [done|]. by destruct (split sep s).
Qed.

(** Splitting a string that has a separator in the middle. *)
Lemma split_app (sep : ascii) (s t : string) :
  split sep (s ++ String sep t) = (split sep s ++ split sep t)%list.
Proof.
  induction s as [|c s IH].
  - change ("" ++ String sep t) with (String sep t). cbn [split].
    by rewrite Ascii.eqb_refl.
  - rewrite string_app_cons. cbn [split]. rewrite IH.
    destruct (Ascii.eqb c sep); [done|].
    pose proof (split_not_nil sep s). by destruct (split sep s).
Qed.

Lemma tagged_with_all_app (names1 names2 : list string) (r : Resource) :
  tagged_with_all (names1 ++ names2) r
  = tagged_with_all names1 r && tagged_with_all names2 r.
Proof.
  unfold tagged_with_all. destruct (meta_tags r); [|done].
  apply forallb_app.
Qed.

Lemma filter_andb {A} (f g : A → bool) (l : list A) :
  List.filter (λ x, f x && g x) l = List.filter g (List.filter f l).
Proof.
  induction l as [|x l IH]; [done|]. simpl.
  destruct (f x); simpl; [|done]. destruct (g x); by rewrite IH.
Qed.

(** X3. Joining two queries with [+] filters the result of the first by the
    second: the joined query yields, in the same order, the resources of
    the first query that also match the second. *)
Theorem walk_resources_tagged_with_join (site : Site) (tag1 tag2 : string) :
  walk_resources_tagged_with site (tag1 ++ "+" ++ tag2)
  = (l <- walk_resources_tagged_with site tag1;;
     Ok (List.filter (tagged_with_all (split plus tag2)) l)).
Proof.
  unfold walk_resources_tagged_with.
  destruct (get_tagger_sort_method site) as [e|walker]; [done|]. simpl.
  rewrite !walk_loop_filter.
  change ("+" ++ tag2) with (String plus tag2). rewrite split_app.
  rewrite <- filter_andb. f_equal. apply List.filter_ext.
  intros r. apply tagged_with_all_app.
Qed.

(** X4. A query with an empty piece, such as the empty query or a query
    ending in [+], asks for the empty tag name: every resource it yields
    carries the tag [""], so the empty query does not list all resources. *)
Theorem walk_resources_tagged_with_empty_piece (site : Site) (tag : string)
    (l : list Resource) :
  "" ∈ split plus tag →
  walk_resources_tagged_with site tag = Ok l →
  ∀ r, r ∈ l → ∃ taglist, meta_tags r = Some taglist ∧ Plain "" ∈ taglist.
Proof.
  intros Hempty (walker & _ & ->)%walk_resources_tagged_with_Ok r
    (taglist & Hmeta & Hsub)%walk_loop_tagged.
  exists taglist. split; [done|].
  apply elem_of_taglist_set, Hsub. by apply elem_of_list_to_set.
Qed.

Lemma walk_resources_tagged_with_empty_piece_witness :
  "" ∈ split plus "a+" ∧
  walk_resources_tagged_with site_empty_name "a+" = Ok [resource_empty_name] ∧
  ∀ r, r ∈ [resource_empty_name] →
       ∃ taglist, meta_tags r = Some taglist ∧ Plain "" ∈ taglist.
Proof.
  assert ("" ∈ split plus "a+") as H1.
  { simpl. apply elem_of_cons. right. apply elem_of_cons. by left. }
  assert (walk_resources_tagged_with site_empty_name "a+"
          = Ok [resource_empty_name]) as H2 by (vm_compute; reflexivity).
  split; [exact H1|]. split; [exact H2|].
  exact (walk_resources_tagged_with_empty_piece site_empty_name "a+" _ H1 H2).
Defined.

(** * Further properties of the Tag class *)

Lemma relate_to_tag_inv (h h' : store) (self tag : ref) (relation_name : string) :
  Tag.relate_to_tag self tag relation_name h = Ok h' →
  ∃ d1 d2,
    attr_of h self "out_relations" = Some (VRelations d1) ∧
    attr_of h tag "in_relations" = Some (VRelations d2) ∧
    h' = setattr
           (setattr h self "out_relations"
              (VRelations (Tag.__create_relation tag relation_name d1)))
           tag "in_relations"
           (VRelations (Tag.__create_relation self relation_name d2)).
Proof.
  unfold Tag.relate_to_tag.
  destruct (get_relations h self "out_relations") as [e|d1] eqn:Hout;
    simpl; [done|].
  match goal with |- context [get_relations ?h1 tag "in_relations"] =>
    destruct (get_relations h1 tag "in_relations") as [e|d2] eqn:Hin end;
    simpl; [done|].
  intros [= <-]. exists d1, d2.
  apply get_relations_Ok in Hout. apply get_relations_Ok in Hin.
  rewrite attr_of_setattr_ne in Hin by (right; done). done.
Qed.

Lemma create_relation_lookup_ne (x : ref) (relation_name other : string) d :
  other ≠ relation_name →
  Tag.__create_relation x relation_name d !! other = d !! other.
Proof.
  intros Hne. unfold Tag.__create_relation.
  set (d' := if bool_decide (relation_name ∈ dom d) then d
             else <[relation_name := []]> d).
  assert (d' !! other = d !! other) as Hd'.
  { subst d'. case_bool_decide; [done|]. by rewrite lookup_insert_ne. }
  case_bool_decide; [done|]. by rewrite lookup_insert_ne.
Qed.

Lemma create_relation_bucket (x : ref) (relation_name : string) d :
  default [] (Tag.__create_relation x relation_name d !! relation_name)
  = if bool_decide (x ∈ default [] (d !! relation_name))
    then default [] (d !! relation_name)
    else (default [] (d !! relation_name) ++ [x])%list.
Proof.
  unfold Tag.__create_relation.
  set (d' := if bool_decide (relation_name ∈ dom d) then d
             else <[relation_name := []]> d).
  assert (default [] (d' !! relation_name) = default [] (d !! relation_name))
    as Hsame.
  { subst d'. case_bool_decide as Hdom; [done|].
    apply not_elem_of_dom in Hdom. by rewrite lookup_insert_eq, Hdom. }
  rewrite Hsame. case_bool_decide; [done|]. by rewrite lookup_insert_eq.
Qed.

Lemma length_setattr (h : store) o attr v : length (setattr h o attr v) = length h.
Proof. apply length_alter. Qed.

(** X5. Relating [self] to [tag] changes two dictionaries and nothing else:
    the store keeps its size, every attribute other than the out-relations
    of [self] and the in-relations of [tag] is as before (names and
    resource lists among them), and in those two dictionaries the lists
    under every other relation name are as before. *)
Theorem relate_to_tag_frame (h h' : store) (self tag : ref)
    (relation_name : string) :
  Tag.relate_to_tag self tag relation_name h = Ok h' →
  length h' = length h ∧
  (∀ o attr,
     ¬ (o = self ∧ attr = "out_relations") →
     ¬ (o = tag ∧ attr = "in_relations") →
     attr_of h' o attr = attr_of h o attr) ∧
  (∀ o attr other,
     other ≠ relation_name → bucket h' o attr other = bucket h o attr other).
Proof.
  intros (d1 & d2 & Hout & Hin & ->)%relate_to_tag_inv.
  assert (∀ o attr,
    ¬ (o = self ∧ attr = "out_relations") →
    ¬ (o = tag ∧ attr = "in_relations") →
    attr_of
      (setattr
         (setattr h self "out_relations"
            (VRelations (Tag.__create_relation tag relation_name d1)))
         tag "in_relations"
         (VRelations (Tag.__create_relation self relation_name d2))) o attr
    = attr_of h o attr) as Hframe.
  { intros o attr H1 H2.
    rewrite attr_of_setattr_ne.
    - rewrite attr_of_setattr_ne; [done|].
      destruct (decide (self = o)); [right; naive_solver|by left].
    - destruct (decide (tag = o)); [right; naive_solver|by left]. }
  split_and!; [by rewrite !length_setattr|exact Hframe|].
  intros o attr other Hother. unfold bucket.
  destruct (decide (o = tag ∧ attr = "in_relations")) as [[-> ->]|Hn2].
  - rewrite attr_of_setattr_eq.
    + rewrite Hin. by rewrite create_relation_lookup_ne.
    + apply lookup_lt_is_Some. rewrite length_setattr.
      apply lookup_lt_is_Some. eauto using attr_of_is_Some.
  - destruct (decide (o = self ∧ attr = "out_relations")) as [[-> ->]|Hn1].
    + rewrite attr_of_setattr_ne
        by (destruct (decide (tag = self)); [right; done|by left]).
      rewrite attr_of_setattr_eq by eauto using attr_of_is_Some.
      rewrite Hout. by rewrite create_relation_lookup_ne.
    + by rewrite Hframe.
Qed.

Lemma relate_to_tag_frame_witness :
  Tag.relate_to_tag 0 1 "parent" store_two_tags
  = Ok (setattr (setattr store_two_tags 0 "out_relations"
                   (VRelations {[ "parent" := [1] ]}))
          1 "in_relations" (VRelations {[ "parent" := [0] ]})) ∧
  attr_of (setattr (setattr store_two_tags 0 "out_relations"
                      (VRelations {[ "parent" := [1] ]}))
             1 "in_relations" (VRelations {[ "parent" := [0] ]})) 1 "name"
  = attr_of store_two_tags 1 "name".
Proof.
  assert (Tag.relate_to_tag 0 1 "parent" store_two_tags
          = Ok (setattr (setattr store_two_tags 0 "out_relations"
                           (VRelations {[ "parent" := [1] ]}))
                  1 "in_relations" (VRelations {[ "parent" := [0] ]}))) as H
    by (vm_compute; reflexivity).
  split; [exact H|].
  destruct (relate_to_tag_frame _ _ 0 1 "parent" H) as (_ & Hframe & _).
  apply Hframe; intros [_ ?]; discriminate.
Defined.

(** X6. The lists are kept in first-insertion order: relating [self] to
    [tag] leaves a list that already holds the other tag as it is, and
    otherwise puts the other tag at its end. *)
Theorem relate_to_tag_bucket (h : store) (self tag : ref)
    (relation_name : string) :
  is_tag h self → is_tag h tag →
  ∃ h',
    Tag.relate_to_tag self tag relation_name h = Ok h' ∧
    bucket h' self "out_relations" relation_name
    = (if bool_decide (tag ∈ bucket h self "out_relations" relation_name)
       then bucket h self "out_relations" relation_name
       else (bucket h self "out_relations" relation_name ++ [tag])%list) ∧
    bucket h' tag "in_relations" relation_name
    = (if bool_decide (self ∈ bucket h tag "in_relations" relation_name)
       then bucket h tag "in_relations" relation_name
       else (bucket h tag "in_relations" relation_name ++ [self])%list).
Proof.
  intros Hself Htag.
  destruct (relate_to_tag_Ok h self tag relation_name Hself Htag)
    as (d1' & d2' & Hrun).
  destruct (relate_to_tag_inv _ _ _ _ _ Hrun) as (d1 & d2 & Hout & Hin & Hh').
  eexists. split; [exact Hrun|]. rewrite Hh'.
  assert (is_Some (h !! self)) by eauto using attr_of_is_Some.
  assert (is_Some (h !! tag)) as Htag' by eauto using attr_of_is_Some.
  assert (is_Some (setattr h self "out_relations"
            (VRelations (Tag.__create_relation tag relation_name d1)) !! tag)).
  { apply lookup_lt_is_Some. rewrite length_setattr.
    by apply lookup_lt_is_Some. }
  unfold bucket. split.
  - rewrite attr_of_setattr_ne by (right; done).
    rewrite attr_of_setattr_eq by done. rewrite Hout.
    apply create_relation_bucket.
  - rewrite attr_of_setattr_eq by done. rewrite Hin.
    apply create_relation_bucket.
Qed.

Lemma relate_to_tag_bucket_witness :
  is_tag store_two_tags 0 ∧ is_tag store_two_tags 1 ∧
  ∃ h',
    Tag.relate_to_tag 0 1 "parent" store_two_tags = Ok h' ∧
    bucket h' 0 "out_relations" "parent"
    = (if bool_decide (1 ∈ bucket store_two_tags 0 "out_relations" "parent")
       then bucket store_two_tags 0 "out_relations" "parent"
       else (bucket store_two_tags 0 "out_relations" "parent" ++ [1])%list) ∧
    bucket h' 1 "in_relations" "parent"
    = (if bool_decide (0 ∈ bucket store_two_tags 1 "in_relations" "parent")
       then bucket store_two_tags 1 "in_relations" "parent"
       else (bucket store_two_tags 1 "in_relations" "parent" ++ [0])%list).
Proof.
  assert (is_tag store_two_tags 0) as H0 by (by eapply is_tag_init).
  assert (is_tag store_two_tags 1) as H1 by (by eapply is_tag_init).
  split; [exact H0|]. split; [exact H1|].
  exact (relate_to_tag_bucket store_two_tags 0 1 "parent" H0 H1).
Defined.

Lemma is_leaf_size (h : store) (o : ref) d :
  attr_of h o "in_relations" = Some (VRelations d) →
  Tag.is_leaf h o = Ok (bool_decide (size d = 0)).
Proof.
  intros Hd. unfold Tag.is_leaf.
  by rewrite (proj2 (get_relations_Ok h o "in_relations" d) Hd).
Qed.

Lemma create_relation_not_empty (x : ref) (relation_name : string) d :
  size (Tag.__create_relation x relation_name d) ≠ 0.
Proof.
  destruct (create_relation_elem x relation_name d) as (l & Hl & _).
  intros Hsize%map_size_empty_inv. by rewrite Hsize, lookup_empty in Hl.
Qed.

(** X7. A tag is a leaf as long as nothing is related to it: a new tag is a
    leaf, a tag that [self] has been related to is not, and relating [self]
    to another tag leaves the answer for [self] as it was. *)
Theorem is_leaf_relate_to_tag (h : store) (self tag : ref) (name relation_name : string) :
  Tag.is_leaf (Tag.new name h).2 (Tag.new name h).1 = Ok true ∧
  (is_tag h self → is_tag h tag →
   ∃ h',
     Tag.relate_to_tag self tag relation_name h = Ok h' ∧
     Tag.is_leaf h' tag = Ok false ∧
     (self ≠ tag → Tag.is_leaf h' self = Tag.is_leaf h self)).
Proof.
  split.
  - unfold Tag.new. cbn [fst snd].
    rewrite (is_leaf_size _ _ ∅); [done|].
    unfold attr_of. by rewrite list_lookup_middle.
  - intros Hself Htag.
    destruct (relate_to_tag_Ok h self tag relation_name Hself Htag)
      as (d1' & d2' & Hrun).
    destruct (relate_to_tag_inv _ _ _ _ _ Hrun) as (d1 & d2 & Hout & Hin & Hh').
    eexists. split; [exact Hrun|]. rewrite Hh'. split.
    + rewrite (is_leaf_size _ _ (Tag.__create_relation self relation_name d2)).
      * rewrite bool_decide_false; [done|]. apply create_relation_not_empty.
      * apply attr_of_setattr_eq. apply lookup_lt_is_Some.
        rewrite length_setattr. apply lookup_lt_is_Some.
        eauto using attr_of_is_Some.
    + intros Hne. unfold Tag.is_leaf, get_relations, getattr.
      rewrite attr_of_setattr_ne by (left; done).
      by rewrite attr_of_setattr_ne by (right; done).
Qed.

Lemma is_leaf_relate_to_tag_witness :
  is_tag store_two_tags 0 ∧ is_tag store_two_tags 1 ∧
  ∃ h',
    Tag.relate_to_tag 0 1 "parent" store_two_tags = Ok h' ∧
    Tag.is_leaf h' 1 = Ok false ∧
    (0 ≠ 1 → Tag.is_leaf h' 0 = Tag.is_leaf store_two_tags 0).
Proof.
  assert (is_tag store_two_tags 0) as H0 by (by eapply is_tag_init).
  assert (is_tag store_two_tags 1) as H1 by (by eapply is_tag_init).
  split; [exact H0|]. split; [exact H1|].
  exact (proj2 (is_leaf_relate_to_tag store_two_tags 0 1 "" "parent") H0 H1).
Defined.

(** * Further properties of the declaration parser *)

Lemma popitem_Ok {A} (d d' : gmap string A) k v :
  popitem d = Ok ((k, v), d') → d !! k = Some v ∧ d' = delete k d.
Proof.
  unfold popitem. destruct (map_to_list d) as [|[k' v'] rest] eqn:Hlist; [done|].
  intros [= -> -> <-]. split; [|done].
  apply elem_of_map_to_list. rewrite Hlist. apply elem_of_cons. by left.
Qed.

(** X8. A structured declaration parses only when it has exactly one key,
    and then that key is the tag name; a declaration without any key ends
    in the [KeyError] of [popitem], not in the tag-definition exception. *)
Theorem parse_tag_relations_Ok (d : gmap string relations_decl) :
  (∀ tagname relation_map,
     _parse_tag_relations d = Ok (tagname, relation_map) →
     size d = 1 ∧ ∃ relations, d = {[tagname := relations]}) ∧
  (size d = 0 →
   _parse_tag_relations d = Raise (KeyError "popitem(): dictionary is empty")).
Proof.
  split.
  - intros tagname relation_map. unfold _parse_tag_relations.
    destruct (popitem d) as [e|[[k v] d']] eqn:Hpop; simpl; [done|].
    apply popitem_Ok in Hpop as [Hk ->].
    case_bool_decide as Hsize; [done|]. intros [= -> _].
    rewrite map_size_delete, Hk in Hsize.
    assert (size d ≠ 0).
    { intros Hz%map_size_empty_inv. by rewrite Hz, lookup_empty in Hk. }
    assert (size d = 1) as Hone by (simpl in Hsize; lia).
    split; [done|]. exists v. by apply size_one_singleton.
  - intros ->%map_size_empty_inv. unfold _parse_tag_relations, popitem.
    by rewrite map_to_list_empty.
Qed.

Lemma parse_tag_relations_Ok_witness :
  _parse_tag_relations decl_one_key
  = Ok ("posts", {[ "author" := "author"; "feature" := "feature" ]}) ∧
  size (∅ : gmap string relations_decl) = 0 ∧
  (size decl_one_key = 1 ∧ ∃ relations, decl_one_key = {[ "posts" := relations ]}) ∧
  _parse_tag_relations ∅ = Raise (KeyError "popitem(): dictionary is empty").
Proof.
  assert (_parse_tag_relations decl_one_key
          = Ok ("posts", {[ "author" := "author"; "feature" := "feature" ]}))
    as H1 by (vm_compute; reflexivity).
  assert (size (∅ : gmap string relations_decl) = 0) as H0 by reflexivity.
  split; [exact H1|]. split; [exact H0|]. split.
  - exact (proj1 (parse_tag_relations_Ok decl_one_key) _ _ H1).
  - exact (proj2 (parse_tag_relations_Ok ∅) H0).
Defined.

(** X9. A structured declaration whose relation list or relation mapping is
    empty is processed exactly like the plain tag name. *)
Theorem declaration_step_no_relations
    (acc : Build * list tag_decl * Resource) (tagname : string) :
  declaration_step acc (Structured {[tagname := RelList []]})
  = declaration_step acc (Plain tagname) ∧
  declaration_step acc (Structured {[tagname := RelDict ∅]})
  = declaration_step acc (Plain tagname).
Proof.
  destruct acc as [[b new_tag_list] resource].
  unfold declaration_step. rewrite !parse_tag_relations_singleton. simpl.
  split.
  - destruct (tags b !! tagname) as [tag|]; simpl.
    + destruct (append_resource tag resource (heap b)); simpl; [done|].
      by rewrite bool_decide_false by (intros H; by apply H).
    + destruct (append_resource _ resource _); simpl; [done|].
      by rewrite bool_decide_false by (intros H; by apply H).
  - destruct (tags b !! tagname) as [tag|]; simpl.
    + destruct (append_resource tag resource (heap b)); simpl; [done|].
      by rewrite bool_decide_false by (intros H; by apply H).
    + destruct (append_resource _ resource _); simpl; [done|].
      by rewrite bool_decide_false by (intros H; by apply H).
Qed.

(** * Further properties of the archive generator *)

Lemma create_tag_archive_None
    (yaml_dump : gmap string yaml → string) (folder_name : string → string)
    (source_folder : string) (tags : gmap string ref)
    (config : ArchiveConfig) (w : World) :
  a_template config = None →
  _create_tag_archive yaml_dump folder_name source_folder tags config w
  = (w, Some (TemplateException NoTemplateSpecified)).
Proof. unfold _create_tag_archive. by intros ->. Qed.

Lemma create_tag_archive_Some
    (yaml_dump : gmap string yaml → string) (folder_name : string → string)
    (source_folder : string) (tags : gmap string ref)
    (config : ArchiveConfig) (w : World) template :
  a_template config = Some template →
  _create_tag_archive yaml_dump folder_name source_folder tags config w
  = (foldl (archive_step folder_name (default "" (a_source config))
              (child source_folder (default "tags" (a_target config)))
              (default "html" (a_extension config)) template
              (archive_meta_text yaml_dump config))
       (if bool_decide (child source_folder (default "tags" (a_target config))
                        ∈ folders w)
        then w
        else mkWorld (files w)
               ({[child source_folder (default "tags" (a_target config))]}
                ∪ folders w)
               (added_resources w))
       (map_to_list tags), None).
Proof. unfold _create_tag_archive. by intros ->. Qed.

(** X10. With a template, the archive generator makes sure that the target
    folder ([tags] under the source folder unless configured) exists and
    touches no other folder; with an empty registry it writes no file and
    registers none. *)
Theorem create_tag_archive_folder
    (yaml_dump : gmap string yaml → string) (folder_name : string → string)
    (source_folder : string) (tags : gmap string ref)
    (config : ArchiveConfig) (w : World) (template : string) :
  a_template config = Some template →
  folders
    (_create_tag_archive yaml_dump folder_name source_folder tags config w).1
  = {[child source_folder (default "tags" (a_target config))]} ∪ folders w ∧
  (tags = ∅ →
   files
     (_create_tag_archive yaml_dump folder_name source_folder tags config w).1
   = files w ∧
   added_resources
     (_create_tag_archive yaml_dump folder_name source_folder tags config w).1
   = added_resources w).
Proof.
  intros Htemplate.
  rewrite (create_tag_archive_Some _ _ _ _ _ _ _ Htemplate). cbn [fst].
  split.
  - rewrite (proj2 (archive_loop_added _ _ _ _ _ _ _ _)).
    case_bool_decide as Hin; cbn [folders]; [|done].
    apply set_eq. intros x. rewrite elem_of_union, elem_of_singleton.
    split; [tauto|]. intros [->|?]; done.
  - intros ->. rewrite map_to_list_empty. cbn [foldl].
    by case_bool_decide.
Qed.

Lemma create_tag_archive_folder_witness :
  a_template archive_blog = Some "t.j2" ∧
  folders
    (_create_tag_archive (λ _, "") id "content" tags_python_go archive_blog
       world_stale).1
  = {[ "content/tags" ]} ∪ folders world_stale.
Proof.
  split; [reflexivity|].
  exact (proj1 (create_tag_archive_folder (λ _, "") id "content" tags_python_go
                  archive_blog world_stale "t.j2" eq_refl)).
Defined.

(** X11. Generating the archives of a configuration again writes the same
    file contents: after the second run every file holds what it held
    after the first. *)
Theorem create_tag_archive_again
    (yaml_dump : gmap string yaml → string) (folder_name : string → string)
    (source_folder : string) (tags : gmap string ref)
    (config : ArchiveConfig) (w : World) :
  files
    (_create_tag_archive yaml_dump folder_name source_folder tags config
       (_create_tag_archive yaml_dump folder_name source_folder tags config
          w).1).1
  = files
      (_create_tag_archive yaml_dump folder_name source_folder tags config w).1.
Proof.
  destruct (a_template config) as [template|] eqn:Htemplate.
  - rewrite !(create_tag_archive_Some _ _ _ _ _ _ _ Htemplate). cbn [fst].
    set (target := child source_folder (default "tags" (a_target config))).
    set (extension := default "html" (a_extension config)).
    match goal with |- files (foldl ?f ?w2 _) = files (foldl _ ?w1 _) =>
      set (step := f); set (w1' := w1); set (w2' := w2) end.
    assert (files w2' = files (foldl step w1' (map_to_list tags))) as Hw2
      by (subst w2'; by case_bool_decide).
    apply map_eq. intros p.
    destruct (decide (p ∈ (λ tagname, archive_path target tagname extension)
                            <$> (map_to_list tags).*1)) as [Hin|Hnotin].
    + apply list_elem_of_fmap in Hin as (tagname & -> & Hin).
      subst step. by rewrite !archive_loop_written.
    + subst step. rewrite (archive_loop_other _ _ _ _ _ _ _ w2' p).
      * by rewrite Hw2.
      * intros tagname Hin ->. apply Hnotin.
        apply list_elem_of_fmap. eauto.
  - by rewrite !(create_tag_archive_None _ _ _ _ _ _ Htemplate).
Qed.

Lemma archives_loop_outcome
    (yaml_dump : gmap string yaml → string) (folder_name : string → string)
    (source_folder : string) (tags : gmap string ref)
    (configs : list (string * ArchiveConfig)) (w : World) :
  (archives_loop yaml_dump folder_name source_folder tags configs w).2
  = if bool_decide (Forall (λ item, is_Some (a_template item.2)) configs)
    then None
    else Some (TemplateException NoTemplateSpecified).
Proof.
  revert w. induction configs as [|[name config] configs IH]; intros w.
  - cbn [archives_loop snd]. by rewrite bool_decide_true by constructor.
  - cbn [archives_loop].
    destruct (a_template config) as [template|] eqn:Htemplate.
    + rewrite (create_tag_archive_Some _ _ _ _ _ _ _ Htemplate).
      rewrite IH.
      assert (Forall (λ item : string * ArchiveConfig,
                        is_Some (a_template item.2)) ((name, config) :: configs)
              ↔ Forall (λ item : string * ArchiveConfig,
                          is_Some (a_template item.2)) configs) as Hiff.
      { rewrite Forall_cons. cbn [snd]. rewrite Htemplate. split; [tauto|].
        intros ?. split; [eauto|done]. }
      by rewrite (bool_decide_ext _ _ Hiff).
    + rewrite (create_tag_archive_None _ _ _ _ _ _ Htemplate). cbn [snd].
      rewrite bool_decide_false; [done|].
      intros [Hc _]%Forall_cons. cbn [snd] in Hc. rewrite Htemplate in Hc.
      by destruct Hc.
Qed.

(** X12. Archive generation as a whole: without a [tagger.archives]
    section nothing happens; when every archive has a template no
    exception is raised; when some archive has none, the run ends in the
    no-template exception, wherever that archive stands in the
    configuration. *)
Theorem generate_archives_outcome
    (yaml_dump : gmap string yaml → string) (folder_name : string → string)
    (source_folder : string) (tags : gmap string ref) (site : Site) (w : World) :
  (tagger (config site) ≫= archives = None →
   _generate_archives yaml_dump folder_name source_folder tags site w
   = (w, None)) ∧
  (∀ archive_config,
     tagger (config site) ≫= archives = Some archive_config →
     (∀ name c, archive_config !! name = Some c → is_Some (a_template c)) →
     (_generate_archives yaml_dump folder_name source_folder tags site w).2
     = None) ∧
  (∀ archive_config name c,
     tagger (config site) ≫= archives = Some archive_config →
     archive_config !! name = Some c → a_template c = None →
     (_generate_archives yaml_dump folder_name source_folder tags site w).2
     = Some (TemplateException NoTemplateSpecified)).
Proof.
  unfold _generate_archives. split_and!.
  - by intros ->.
  - intros archive_config -> Hall. rewrite archives_loop_outcome.
    rewrite bool_decide_true; [done|]. apply Forall_forall.
    intros [name c] Hin%elem_of_map_to_list. by apply (Hall name c).
  - intros archive_config name c -> Hc Hnone. rewrite archives_loop_outcome.
    rewrite bool_decide_false; [done|]. intros Hall.
    rewrite Forall_forall in Hall.
    specialize (Hall (name, c)). cbn [snd] in Hall. rewrite Hnone in Hall.
    destruct Hall as [? ?]; [|done]. by apply elem_of_map_to_list.
Qed.

Lemma generate_archives_outcome_witness :
  (tagger (config site_archives_bad) ≫= archives
   = Some {[ "blog" := archive_blog; "notes" := archive_without_template ]}) ∧
  ({[ "blog" := archive_blog; "notes" := archive_without_template ]}
     : gmap string ArchiveConfig) !! "notes" = Some archive_without_template ∧
  a_template archive_without_template = None ∧
  (_generate_archives (λ _, "") id "content" tags_python_go site_archives_bad
     world_stale).2
  = Some (TemplateException NoTemplateSpecified) ∧
  (_generate_archives (λ _, "") id "content" tags_python_go site_archives_good
     world_stale).2
  = None.
Proof.
  assert (({[ "blog" := archive_blog; "notes" := archive_without_template ]}
             : gmap string ArchiveConfig) !! "notes"
          = Some archive_without_template) as Hnotes
    by (vm_compute; reflexivity).
  split; [reflexivity|]. split; [exact Hnotes|]. split; [reflexivity|]. split.
  - exact (proj2 (proj2 (generate_archives_outcome (λ _, "") id "content"
                           tags_python_go site_archives_bad world_stale))
             _ "notes" archive_without_template eq_refl Hnotes eq_refl).
  - apply (proj1 (proj2 (generate_archives_outcome (λ _, "") id "content"
                           tags_python_go site_archives_good world_stale))
             {[ "blog" := archive_blog ]} eq_refl).
    intros name c [_ <-]%lookup_singleton_Some. by eexists.
Defined.

Lemma string_app_not_empty (s t : string) : t ≠ "" → s ++ t ≠ "".
Proof.
  intros Ht Heq. apply (f_equal String.length) in Heq.
  rewrite string_length_app in Heq. destruct t; [done|]. simpl in Heq. lia.
Qed.

Lemma rstrip_app (s t : string) :
  rstrip t ≠ "" → rstrip (s ++ t) = s ++ rstrip t.
Proof.
  intros Ht. induction s as [|c s IH]; [done|].
  rewrite !string_app_cons. cbn [rstrip]. rewrite IH.
  pose proof (string_app_not_empty s (rstrip t) Ht).
  by destruct (s ++ rstrip t).
Qed.

Lemma rstrip_app_not_empty (s t : string) :
  rstrip t ≠ "" → rstrip (s ++ t) ≠ "".
Proof.
  intros Ht. rewrite rstrip_app by done. by apply string_app_not_empty.
Qed.

(** X13. The text written to an archive file is the template text without
    its first and its last newline, whatever the tag name, the node name,
    the template and the meta text are: it starts with the front-matter
    mark and ends with the [extends] directive, and [strip] removes
    nothing that belongs to the inserted values. *)
Theorem archive_text_strip (tag node template meta : string) :
  strip (archive_text tag node template meta)
  = "---" ++ newline ++
    "extends: false" ++ newline ++
    meta ++ newline ++
    "---" ++ newline ++
    newline ++
    "{% set tag = site.tagger.tags['" ++ tag ++ "'] %}" ++ newline ++
    "{% set source = site.content.node_from_relative_path('" ++ node ++ "') %}" ++ newline ++
    "{% set walker = source.walk_resources_tagged_with_" ++ tag ++ " %}" ++ newline ++
    "{% extends " ++ dquote ++ template ++ dquote ++ " %}".
Proof.
  unfold strip, archive_text.
  match goal with |- rstrip (lstrip (newline ++ ?rest)) = _ =>
    change (lstrip (newline ++ rest)) with rest end.
  assert (rstrip (" %}" ++ newline) ≠ "") as Hlast by (vm_compute; discriminate).
  repeat (rewrite rstrip_app;
          [f_equal
          |solve [repeat first [exact Hlast|apply rstrip_app_not_empty]]]).
Qed.

(** * Further properties of the relations of a declaration *)

Lemma relate_to_tag_attr (h h' : store) (self tag : ref) relation_name o attr :
  Tag.relate_to_tag self tag relation_name h = Ok h' →
  attr ≠ "in_relations" → attr ≠ "out_relations" →
  attr_of h' o attr = attr_of h o attr.
Proof.
  intros (d1 & d2 & _ & _ & ->)%relate_to_tag_inv Hin Hout.
  rewrite !attr_of_setattr_ne by (right; done). done.
Qed.

Lemma relate_to_tag_length (h h' : store) (self tag : ref) relation_name :
  Tag.relate_to_tag self tag relation_name h = Ok h' → length h' = length h.
Proof.
  intros (d1 & d2 & _ & _ & ->)%relate_to_tag_inv. by rewrite !length_setattr.
Qed.

Lemma relate_to_tag_is_tag (h h' : store) (self tag : ref) relation_name o :
  Tag.relate_to_tag self tag relation_name h = Ok h' →
  is_tag h o → is_tag h' o.
Proof.
  intros (d1 & d2 & _ & _ & ->)%relate_to_tag_inv Ho.
  by do 2 (apply is_tag_setattr_relations; [tauto|]).
Qed.

Lemma elem_of_create_relation_bucket (x y : ref) relation_name other d :
  y ∈ default [] (d !! other) →
  y ∈ default [] (Tag.__create_relation x relation_name d !! other).
Proof.
  intros Hy. destruct (decide (other = relation_name)) as [->|Hne].
  - rewrite create_relation_bucket. case_bool_decide; [done|].
    apply elem_of_app. by left.
  - by rewrite create_relation_lookup_ne.
Qed.

(** The lists of the relation dictionaries only grow. *)
Lemma relate_to_tag_mono (h h' : store) (self tag : ref) relation_name
    o attr other y :
  Tag.relate_to_tag self tag relation_name h = Ok h' →
  y ∈ bucket h o attr other → y ∈ bucket h' o attr other.
Proof.
  intros (d1 & d2 & Hout & Hin & ->)%relate_to_tag_inv.
  assert (is_Some (h !! self)) by eauto using attr_of_is_Some.
  assert (is_Some (setattr h self "out_relations"
            (VRelations (Tag.__create_relation tag relation_name d1)) !! tag)).
  { apply lookup_lt_is_Some. rewrite length_setattr.
    apply lookup_lt_is_Some. eauto using attr_of_is_Some. }
  unfold bucket.
  destruct (decide (o = tag ∧ attr = "in_relations")) as [[-> ->]|Hn2].
  - rewrite attr_of_setattr_eq by done. rewrite Hin.
    apply elem_of_create_relation_bucket.
  - rewrite attr_of_setattr_ne
      by (destruct (decide (tag = o)); [right; naive_solver|by left]).
    destruct (decide (o = self ∧ attr = "out_relations")) as [[-> ->]|Hn1].
    + rewrite attr_of_setattr_eq by done. rewrite Hout.
      apply elem_of_create_relation_bucket.
    + rewrite attr_of_setattr_ne
        by (destruct (decide (self = o)); [right; naive_solver|by left]).
      done.
Qed.

Lemma relate_to_tag_members (h h' : store) (self tag : ref) relation_name :
  Tag.relate_to_tag self tag relation_name h = Ok h' →
  tag ∈ bucket h' self "out_relations" relation_name ∧
  self ∈ bucket h' tag "in_relations" relation_name.
Proof.
  intros (d1 & d2 & Hout & Hin & ->)%relate_to_tag_inv.
  assert (is_Some (h !! self)) by eauto using attr_of_is_Some.
  assert (is_Some (setattr h self "out_relations"
            (VRelations (Tag.__create_relation tag relation_name d1)) !! tag)).
  { apply lookup_lt_is_Some. rewrite length_setattr.
    apply lookup_lt_is_Some. eauto using attr_of_is_Some. }
  unfold bucket. split.
  - rewrite attr_of_setattr_ne by (right; done).
    rewrite attr_of_setattr_eq by done.
    destruct (create_relation_elem tag relation_name d1) as (l & -> & Hl).
    done.
  - rewrite attr_of_setattr_eq by done.
    destruct (create_relation_elem self relation_name d2) as (l & -> & Hl).
    done.
Qed.

Lemma bucket_app_l (h : store) (t : TagObj) o attr other :
  is_Some (h !! o) → bucket (h ++ [t]) o attr other = bucket h o attr other.
Proof. intros Ho. unfold bucket. by rewrite attr_of_app_l. Qed.

(** One relation, in full: the tag it relates to, the store it works on and
    the build it returns. *)
Lemma relation_step_run (tag : ref) (b : Build) (relation_name related_tag_name : string) :
  is_tag (heap b) tag → wf_build b →
  ∃ h0 related h',
    (h0, related)
    = match tags b !! related_tag_name with
      | Some related => (heap b, related)
      | None => ((heap b ++ [Tag.__init__ related_tag_name])%list,
                 length (heap b))
      end ∧
    is_tag h0 tag ∧ is_tag h0 related ∧
    Tag.relate_to_tag tag related relation_name h0 = Ok h' ∧
    relation_step tag b (relation_name, related_tag_name)
    = Ok (mkBuild h'
            (match tags b !! related_tag_name with
             | Some _ => tags b
             | None => <[relation_name := length (heap b)]> (tags b)
             end)
            (<[walker_name related_tag_name := tag]> (node_methods b))).
Proof.
  intros Htag Hwf. unfold relation_step, Tag.new.
  destruct (tags b !! related_tag_name) as [related|] eqn:Hrel.
  - pose proof (Hwf _ _ Hrel) as Hrelated.
    destruct (relate_to_tag_Ok (heap b) tag related relation_name Htag Hrelated)
      as (d1 & d2 & Hrun).
    eexists _, _, _. split; [done|]. split_and!; [done|done|exact Hrun|].
    cbn [add_method heap tags node_methods]. by rewrite Hrun.
  - pose proof (is_tag_app (heap b) (Tag.__init__ related_tag_name) tag Htag)
      as Htag'.
    pose proof (is_tag_new (heap b) related_tag_name) as Hnew.
    destruct (relate_to_tag_Ok _ tag (length (heap b)) relation_name Htag' Hnew)
      as (d1 & d2 & Hrun).
    eexists _, _, _. split; [done|]. split_and!; [done|done|exact Hrun|].
    cbn [add_method heap tags node_methods]. by rewrite Hrun.
Qed.

Lemma store_grows_refl (h : store) : store_grows h h.
Proof. by split_and!. Qed.

Lemma store_grows_trans (h1 h2 h3 : store) :
  store_grows h1 h2 → store_grows h2 h3 → store_grows h1 h3.
Proof.
  intros (Hl1 & Ht1 & Hm1 & Ha1) (Hl2 & Ht2 & Hm2 & Ha2).
  assert (∀ o, is_Some (h1 !! o) → is_Some (h2 !! o)) as Hsome.
  { intros o Ho%lookup_lt_is_Some. apply lookup_lt_is_Some. lia. }
  split_and!.
  - lia.
  - eauto.
  - intros o attr other y Ho Hy. apply Hm2; [by apply Hsome|]. by apply Hm1.
  - intros o attr Ho H1 H2. rewrite Ha2 by eauto. by apply Ha1.
Qed.

Lemma store_grows_app (h : store) (t : TagObj) : store_grows h (h ++ [t]).
Proof.
  split_and!.
  - rewrite length_app. lia.
  - intros o. apply is_tag_app.
  - intros o attr other y Ho. by rewrite bucket_app_l.
  - intros o attr Ho _ _. by apply attr_of_app_l.
Qed.

Lemma store_grows_relate (h h' : store) (self tag : ref) relation_name :
  Tag.relate_to_tag self tag relation_name h = Ok h' → store_grows h h'.
Proof.
  intros Hrun. split_and!.
  - by rewrite (relate_to_tag_length _ _ _ _ _ Hrun).
  - intros o. by apply (relate_to_tag_is_tag _ _ _ _ _ _ Hrun).
  - intros o attr other y _. by apply (relate_to_tag_mono _ _ _ _ _ _ _ _ _ Hrun).
  - intros o attr _ H1 H2. by apply (relate_to_tag_attr _ _ _ _ _ _ _ Hrun).
Qed.

Lemma relation_step_facts (tag : ref) (b : Build) (relation_name related_tag_name : string) :
  is_tag (heap b) tag → wf_build b →
  ∃ b' related,
    relation_step tag b (relation_name, related_tag_name) = Ok b' ∧
    store_grows (heap b) (heap b') ∧ wf_build b' ∧
    is_tag (heap b') related ∧
    related ∈ bucket (heap b') tag "out_relations" relation_name ∧
    tag ∈ bucket (heap b') related "in_relations" relation_name ∧
    (length (heap b') ≤ S (length (heap b)))%nat ∧
    (∀ key, key ≠ relation_name → tags b' !! key = tags b !! key) ∧
    (∀ key t, tags b !! key = Some t → is_Some (tags b' !! key)).
Proof.
  intros Htag Hwf.
  destruct (relation_step_run tag b relation_name related_tag_name Htag Hwf)
    as (h0 & related & h' & Hh0 & Htag0 & Hrel0 & Hrun & Hstep).
  assert (store_grows (heap b) h0 ∧ (length h0 ≤ S (length (heap b)))%nat)
    as [Hgrow0 Hlen0].
  { destruct (tags b !! related_tag_name); simplify_eq.
    - split; [apply store_grows_refl|lia].
    - split; [apply store_grows_app|]. rewrite length_app. simpl. lia. }
  pose proof (store_grows_relate _ _ _ _ _ Hrun) as Hgrow1.
  pose proof (store_grows_trans _ _ _ Hgrow0 Hgrow1) as Hgrow.
  destruct (relate_to_tag_members _ _ _ _ _ Hrun) as [Hout Hin].
  eexists _, related. split; [exact Hstep|]. cbn [heap tags].
  split_and!; try done.
  - intros key t Hkey. destruct Hgrow as (_ & Htags & _).
    cbn [heap tags] in Hkey |- *.
    destruct (tags b !! related_tag_name) eqn:Hrel.
    + apply Htags. by apply (Hwf key t).
    + apply lookup_insert_Some in Hkey as [[_ <-]|[_ Hkey]].
      * simplify_eq. by apply (relate_to_tag_is_tag _ _ _ _ _ _ Hrun).
      * apply Htags. by apply (Hwf key t).
  - by apply (relate_to_tag_is_tag _ _ _ _ _ _ Hrun).
  - rewrite (relate_to_tag_length _ _ _ _ _ Hrun). done.
  - intros key Hkey. destruct (tags b !! related_tag_name); [done|].
    by rewrite lookup_insert_ne.
  - intros key t Hkey. destruct (tags b !! related_tag_name); [eauto|].
    destruct (decide (relation_name = key)) as [->|Hne].
    + rewrite lookup_insert_eq. eauto.
    + rewrite lookup_insert_ne by done. eauto.
Qed.

Lemma create_tag_relations_loop_edges (tag : ref) (l : list (string * string))
    (b : Build) :
  is_tag (heap b) tag → wf_build b →
  ∃ b',
    for_each (relation_step tag) b l = Ok b' ∧
    store_grows (heap b) (heap b') ∧ wf_build b' ∧
    (length (heap b') ≤ length (heap b) + length l)%nat ∧
    (∀ key, key ∉ l.*1 → tags b' !! key = tags b !! key) ∧
    (∀ key t, tags b !! key = Some t → is_Some (tags b' !! key)) ∧
    ∀ relation_name related_tag_name,
      (relation_name, related_tag_name) ∈ l →
      ∃ related,
        is_tag (heap b') related ∧
        related ∈ bucket (heap b') tag "out_relations" relation_name ∧
        tag ∈ bucket (heap b') related "in_relations" relation_name.
Proof.
  revert b. induction l as [|[r t] l IH]; intros b Htag Hwf.
  - exists b. split; [done|]. split; [apply store_grows_refl|].
    split; [done|]. split; [simpl; lia|]. split; [done|]. split; [eauto|].
    intros ?? Hin. by apply elem_of_nil in Hin.
  - destruct (relation_step_facts tag b r t Htag Hwf)
      as (b1 & related & Hstep & Hgrow1 & Hwf1 & Hrel1 & Hout1 & Hin1 & Hlen1
          & Hkeys1 & Hkept1).
    assert (is_tag (heap b1) tag) as Htag1 by (by apply Hgrow1).
    destruct (IH b1 Htag1 Hwf1)
      as (b' & Hloop & Hgrow' & Hwf' & Hlen' & Hkeys' & Hkept' & Hedges').
    exists b'. cbn [for_each]. rewrite Hstep. unfold bind at 1.
    split; [done|]. split; [by eapply store_grows_trans|].
    split; [done|]. split; [simpl; lia|]. split; [|split].
    + intros key Hkey. rewrite fmap_cons, not_elem_of_cons in Hkey.
      destruct Hkey as [Hne Hkey]. cbn [fst] in Hne.
      rewrite Hkeys' by done. by apply Hkeys1.
    + intros key t' Hkey. destruct (Hkept1 key t' Hkey) as [t1 Ht1]. eauto.
    + intros relation_name related_tag_name [[= -> ->]|Hin]%elem_of_cons.
      * exists related. destruct Hgrow' as (_ & Htags & Hmono & _).
        split_and!.
        -- by apply Htags.
        -- apply Hmono; [by apply is_tag_is_Some|done].
        -- apply Hmono; [by apply is_tag_is_Some|done].
      * by apply (Hedges' relation_name related_tag_name).
Qed.

(** X14. On a well-formed build, creating the relations of a tag succeeds
    and leaves, for every declared relation, a tag in the out-relations of
    the source under the relation name with the source in its in-relations
    under that name.  At most one tag is made per relation, no registry
    key is lost, keys that are no relation name keep their tag, and names
    and resource lists of the existing tags stay as they are. *)
Theorem create_tag_relations_edges (tag : ref) (b : Build)
    (relations : gmap string string) :
  is_tag (heap b) tag → wf_build b →
  ∃ b',
    _create_tag_relations tag b relations = Ok b' ∧
    wf_build b' ∧
    (length (heap b) ≤ length (heap b') ≤ length (heap b) + size relations)%nat ∧
    (∀ relation_name related_tag_name,
       relations !! relation_name = Some related_tag_name →
       ∃ related,
         is_tag (heap b') related ∧
         related ∈ bucket (heap b') tag "out_relations" relation_name ∧
         tag ∈ bucket (heap b') related "in_relations" relation_name) ∧
    (∀ key, relations !! key = None → tags b' !! key = tags b !! key) ∧
    (∀ key, is_Some (tags b !! key) → is_Some (tags b' !! key)) ∧
    (∀ o, is_Some (heap b !! o) →
       attr_of (heap b') o "name" = attr_of (heap b) o "name" ∧
       attr_of (heap b') o "resources" = attr_of (heap b) o "resources").
Proof.
  intros Htag Hwf. unfold _create_tag_relations.
  destruct (create_tag_relations_loop_edges tag (map_to_list relations) b Htag Hwf)
    as (b' & Hloop & (Hlen & _ & _ & Hattr) & Hwf' & Hlen' & Hkeys & Hkept
        & Hedges).
  exists b'. split_and!; try done.
  - by rewrite length_map_to_list in Hlen'.
  - intros relation_name related_tag_name Hrel.
    apply (Hedges relation_name related_tag_name).
    by apply elem_of_map_to_list.
  - intros key Hkey. apply Hkeys. intros Hin.
    apply list_elem_of_fmap in Hin as ([k v] & -> & Hin%elem_of_map_to_list).
    cbn [fst] in Hkey. congruence.
  - intros key [t Ht]. eauto.
  - intros o Ho. split; by apply Hattr.
Qed.

Lemma create_tag_relations_edges_witness :
  is_tag (heap build_post) 0 ∧ wf_build build_post ∧
  ∃ b',
    _create_tag_relations 0 build_post {[ "parent" := "author" ]} = Ok b' ∧
    ∃ related,
      is_tag (heap b') related ∧
      related ∈ bucket (heap b') 0 "out_relations" "parent" ∧
      0 ∈ bucket (heap b') related "in_relations" "parent".
Proof.
  assert (is_tag (heap build_post) 0) as Htag by (by eapply is_tag_init).
  split; [exact Htag|]. split; [exact wf_build_post|].
  destruct (create_tag_relations_edges 0 build_post {[ "parent" := "author" ]}
              Htag wf_build_post) as (b' & Hrun & _ & _ & Hedges & _).
  exists b'. split; [exact Hrun|].
  apply (Hedges "parent" "author"). apply lookup_singleton_eq.
Defined.

Lemma wf_named_wf_build (b : Build) : wf_named b → wf_build b.
Proof. intros Hwf tagname tag Htag. by apply (Hwf tagname tag). Qed.

Lemma attr_of_new_name (h : store) (name : string) :
  attr_of (h ++ [Tag.__init__ name]) (length h) "name" = Some (VStr name).
Proof. unfold attr_of. by rewrite list_lookup_middle. Qed.

(** One relation whose name is its target, on a registry keyed by tag
    name: the target is found or registered under its own name, and
    nothing registered is replaced. *)
Lemma relation_step_named (tag : ref) (b : Build) (t : string) :
  is_tag (heap b) tag → wf_named b →
  ∃ b' related,
    relation_step tag b (t, t) = Ok b' ∧
    store_grows (heap b) (heap b') ∧ wf_named b' ∧
    (∀ key x, tags b !! key = Some x → tags b' !! key = Some x) ∧
    tags b' !! t = Some related ∧
    related ∈ bucket (heap b') tag "out_relations" t ∧
    tag ∈ bucket (heap b') related "in_relations" t.
Proof.
  intros Htag Hwf.
  destruct (relation_step_run tag b t t Htag (wf_named_wf_build b Hwf))
    as (h0 & related & h' & Hh0 & Htag0 & Hrel0 & Hrun & Hstep).
  pose proof (store_grows_relate _ _ _ _ _ Hrun) as Hgrow1.
  destruct (relate_to_tag_members _ _ _ _ _ Hrun) as [Hout Hin].
  eexists _, related. split; [exact Hstep|]. cbn [heap tags].
  destruct (tags b !! t) as [r|] eqn:Hrel; simplify_eq.
  - split; [done|]. split_and!; try done.
    intros key x Hkey. cbn [heap tags] in *.
    destruct (Hwf key x Hkey) as [Hx Hname]. split.
    + by apply Hgrow1.
    + destruct Hgrow1 as (_ & _ & _ & Hattr).
      rewrite Hattr; [done|by apply is_tag_is_Some|done|done].
  - pose proof (store_grows_app (heap b) (Tag.__init__ t)) as Hgrow0.
    pose proof (store_grows_trans _ _ _ Hgrow0 Hgrow1) as Hgrow.
    split; [done|]. split_and!; try done.
    + intros key x Hkey. cbn [heap tags] in *.
      destruct Hgrow1 as (_ & Htags1 & _ & Hattr1).
      apply lookup_insert_Some in Hkey as [[<- <-]|[Hne Hkey]].
      * split; [by apply Htags1|].
        rewrite Hattr1; [apply attr_of_new_name|by apply is_tag_is_Some|done|done].
      * destruct (Hwf key x Hkey) as [Hx Hname].
        destruct Hgrow as (_ & Htags & _ & Hattr). split; [by apply Htags|].
        rewrite Hattr; [done|by apply is_tag_is_Some|done|done].
    + intros key x Hkey. rewrite lookup_insert_ne; [done|]. congruence.
    + apply lookup_insert_eq.
Qed.

Lemma create_tag_relations_loop_named (tag : ref) (l : list (string * string))
    (b : Build) :
  is_tag (heap b) tag → wf_named b →
  (∀ r t, (r, t) ∈ l → r = t) →
  ∃ b',
    for_each (relation_step tag) b l = Ok b' ∧
    store_grows (heap b) (heap b') ∧ wf_named b' ∧
    (∀ key x, tags b !! key = Some x → tags b' !! key = Some x) ∧
    ∀ r t, (r, t) ∈ l →
      ∃ related,
        tags b' !! t = Some related ∧
        related ∈ bucket (heap b') tag "out_relations" t ∧
        tag ∈ bucket (heap b') related "in_relations" t.
Proof.
  revert b. induction l as [|[r t] l IH]; intros b Htag Hwf Hsame.
  - exists b. split; [done|]. split; [apply store_grows_refl|].
    split; [done|]. split; [done|].
    intros ?? Hin. by apply elem_of_nil in Hin.
  - assert (r = t) as -> by (apply Hsame, elem_of_cons; by left).
    destruct (relation_step_named tag b t Htag Hwf)
      as (b1 & related & Hstep & Hgrow1 & Hwf1 & Hkept1 & Hreg1 & Hout1 & Hin1).
    assert (is_tag (heap b1) tag) as Htag1 by (by apply Hgrow1).
    destruct (IH b1 Htag1 Hwf1)
      as (b' & Hloop & Hgrow' & Hwf' & Hkept' & Hedges').
    { intros r' t' Hin. apply Hsame, elem_of_cons. by right. }
    exists b'. cbn [for_each]. rewrite Hstep. unfold bind at 1.
    split; [done|]. split; [by eapply store_grows_trans|].
    split; [done|]. split; [by eauto|].
    intros r' t' [[= -> ->]|Hin]%elem_of_cons.
    + exists related. destruct Hgrow' as (_ & _ & Hmono & _).
      destruct (Hwf1 t related Hreg1) as [Hrelated _].
      split_and!.
      * by apply Hkept'.
      * apply Hmono; [by apply is_tag_is_Some|done].
      * apply Hmono; [by apply is_tag_is_Some|done].
    + by apply (Hedges' r' t').
Qed.

(** X15. When every relation name is its own target, as in the list
    shorthand, and the registry is keyed by tag name, creating the
    relations keeps the registry keyed by tag name, replaces none of its
    entries, and registers every target under its own name with both
    edges in place. *)
Theorem create_tag_relations_named (tag : ref) (b : Build)
    (relations : gmap string string) :
  is_tag (heap b) tag → wf_named b →
  (∀ r t, relations !! r = Some t → r = t) →
  ∃ b',
    _create_tag_relations tag b relations = Ok b' ∧
    wf_named b' ∧
    (∀ key x, tags b !! key = Some x → tags b' !! key = Some x) ∧
    ∀ t, is_Some (relations !! t) →
      ∃ related,
        tags b' !! t = Some related ∧
        Tag.__str__ (heap b') related = Ok t ∧
        related ∈ bucket (heap b') tag "out_relations" t ∧
        tag ∈ bucket (heap b') related "in_relations" t.
Proof.
  intros Htag Hwf Hsame. unfold _create_tag_relations.
  destruct (create_tag_relations_loop_named tag (map_to_list relations) b Htag Hwf)
    as (b' & Hloop & _ & Hwf' & Hkept & Hedges).
  { intros r t Hin%elem_of_map_to_list. by apply Hsame. }
  exists b'. split_and!; try done.
  intros t [t' Ht]. assert (t = t') as <- by (by apply Hsame).
  destruct (Hedges t t) as (related & Hreg & Hout & Hin);
    [by apply elem_of_map_to_list|].
  exists related. split_and!; try done.
  destruct (Hwf' t related Hreg) as [_ Hname].
  unfold Tag.__str__, getattr. by rewrite Hname.
Qed.

Lemma wf_named_post : wf_named build_post.
Proof.
  intros tagname tag Hin. cbn [build_post tags] in Hin.
  apply lookup_singleton_Some in Hin as [<- <-].
  split; [by eapply is_tag_init|done].
Qed.

Lemma create_tag_relations_named_witness :
  is_tag (heap build_post) 0 ∧ wf_named build_post ∧
  (∀ r t, explicit_form ["author"; "feature"] !! r = Some t → r = t) ∧
  ∃ b',
    _create_tag_relations 0 build_post (explicit_form ["author"; "feature"])
    = Ok b' ∧
    ∃ related,
      tags b' !! "author" = Some related ∧
      Tag.__str__ (heap b') related = Ok "author".
Proof.
  assert (is_tag (heap build_post) 0) as Htag by (by eapply is_tag_init).
  assert (∀ r t, explicit_form ["author"; "feature"] !! r = Some t → r = t)
    as Hsame.
  { intros r t. rewrite lookup_explicit_form. case_bool_decide; congruence. }
  split; [exact Htag|]. split; [exact wf_named_post|]. split; [exact Hsame|].
  destruct (create_tag_relations_named 0 build_post
              (explicit_form ["author"; "feature"]) Htag wf_named_post Hsame)
    as (b' & Hrun & _ & _ & Htargets).
  exists b'. split; [exact Hrun|].
  destruct (Htargets "author") as (related & Hreg & Hstr & _).
  { rewrite lookup_explicit_form. rewrite bool_decide_true; [by eexists|].
    apply elem_of_cons. by left. }
  exists related. split; [exact Hreg|exact Hstr].
Defined.

(** * Further properties of the tags of a resource *)

Lemma bind_Ok {A B} (m : result A) (k : A → result B) (y : B) :
  bind m k = Ok y → ∃ x, m = Ok x ∧ k x = Ok y.
Proof. destruct m as [e|x]; simpl; [done|]. eauto. Qed.

Lemma getitem_Ok (tags : gmap string ref) key tag :
  getitem tags key = Ok tag → tags !! key = Some tag.
Proof. unfold getitem. destruct (tags !! key); [|done]. by intros [= ->]. Qed.

(** One declaration that is processed without an exception. *)
Lemma declaration_step_Ok b new_tag_list resource decl b' new_tag_list' resource' :
  declaration_step (b, new_tag_list, resource) decl
  = Ok (b', new_tag_list', resource') →
  ∃ out tag,
    normalizes decl out ∧
    new_tag_list' = (new_tag_list ++ [out])%list ∧
    rid resource' = rid resource ∧
    meta_tags resource' = meta_tags resource ∧
    res_tags resource' = Some (default [] (res_tags resource) ++ [tag])%list.
Proof.
  unfold declaration_step.
  intros ([tagname relations] & Hparsed & Hrest)%bind_Ok.
  apply bind_Ok in Hrest as (b1 & _ & Hrest).
  apply bind_Ok in Hrest as (b2 & _ & Hrest).
  apply bind_Ok in Hrest as (tag & _ & Hrest).
  injection Hrest as <- <- <-.
  exists (Plain tagname), tag. split_and!; try done.
  - exists tagname. split; [done|]. destruct decl as [n|d].
    + left. by injection Hparsed as ->.
    + right. apply bind_Ok in Hparsed as ([n m] & Hparse & Heq).
      injection Heq as <- _. cbn [fst] in *.
      unfold _parse_tag_relations in Hparse.
      apply bind_Ok in Hparse as ([[k v] d'] & Hpop & Hparse).
      apply popitem_Ok in Hpop as [Hk ->].
      case_bool_decide as Hsize; [done|]. injection Hparse as -> _.
      exists v. f_equal. apply size_one_singleton; [|done].
      rewrite map_size_delete, Hk in Hsize.
      assert (size d ≠ 0).
      { intros Hz%map_size_empty_inv. by rewrite Hz, lookup_empty in Hk. }
      simpl in Hsize. lia.
  - by destruct (res_tags resource).
  - by destruct (res_tags resource).
  - destruct (res_tags resource) eqn:Hres; simpl; by rewrite ?Hres.
Qed.

Lemma declaration_loop_Ok taglist b new_tag_list resource b' new_tag_list' resource' :
  for_each declaration_step (b, new_tag_list, resource) taglist
  = Ok (b', new_tag_list', resource') →
  ∃ outs ts,
    Forall2 normalizes taglist outs ∧
    new_tag_list' = (new_tag_list ++ outs)%list ∧
    rid resource' = rid resource ∧
    meta_tags resource' = meta_tags resource ∧
    length ts = length taglist ∧
    (taglist = [] → resource' = resource) ∧
    (taglist ≠ [] →
     res_tags resource' = Some (default [] (res_tags resource) ++ ts)%list).
Proof.
  revert b new_tag_list resource.
  induction taglist as [|decl taglist IH]; intros b new_tag_list resource.
  - cbn [for_each]. intros [= <- <- <-]. exists [], [].
    split_and!; try done. by rewrite (right_id [] _).
  - cbn [for_each]. intros ([[b1 ntl1] r1] & Hstep & Hloop)%bind_Ok.
    apply declaration_step_Ok in Hstep
      as (out & tag & Hnorm & -> & Hrid & Hmeta & Hres).
    apply IH in Hloop as (outs & ts & Hall & -> & Hrid' & Hmeta' & Hlen & Hnil & Hcons).
    exists (out :: outs), (tag :: ts). split_and!.
    + by constructor.
    + by rewrite <- (assoc _).
    + congruence.
    + congruence.
    + simpl. by rewrite Hlen.
    + done.
    + intros _. destruct taglist as [|decl' taglist].
      * rewrite (Hnil eq_refl), Hres.
        destruct ts; [done|discriminate].
      * rewrite Hcons by done. rewrite Hres. simpl.
        by rewrite <- (assoc _).
Qed.

(** X16. When the tags of a resource are processed without an exception,
    its tag list is rewritten position by position: a plain name stays,
    a structured declaration is replaced by its single key.  The resource
    gets one tag reference per declaration; a resource without a tag list
    is left as it is, and so is the build. *)
Theorem process_tags_in_resource_normalizes (resource resource' : Resource)
    (b b' : Build) :
  _process_tags_in_resource resource b = Ok (b', resource') →
  rid resource' = rid resource ∧
  match meta_tags resource with
  | None => b' = b ∧ resource' = resource
  | Some taglist =>
      ∃ outs ts,
        meta_tags resource' = Some outs ∧
        Forall2 normalizes taglist outs ∧
        length ts = length taglist ∧
        (taglist ≠ [] →
         res_tags resource' = Some (default [] (res_tags resource) ++ ts)%list)
  end.
Proof.
  unfold _process_tags_in_resource.
  destruct (meta_tags resource) as [taglist|] eqn:Hmeta.
  - intros ([[b1 ntl] r1] & Hloop & Heq)%bind_Ok.
    injection Heq as <- <-. cbn [rid meta_tags res_tags].
    apply declaration_loop_Ok in Hloop
      as (outs & ts & Hall & -> & Hrid & _ & Hlen & _ & Hres).
    split; [done|]. exists outs, ts. by split_and!.
  - by intros [= <- <-].
Qed.

Lemma process_tags_in_resource_normalizes_witness :
  ∃ b' resource',
    _process_tags_in_resource resource_post (mkBuild [] ∅ ∅)
    = Ok (b', resource') ∧
    rid resource' = rid resource_post ∧
    ∃ outs ts,
      meta_tags resource' = Some outs ∧
      Forall2 normalizes
        [Structured {[ "post" := RelDict {[ "parent" := "author" ]} ]};
         Plain "author"] outs ∧
      length ts = 2 ∧
      (([Structured {[ "post" := RelDict {[ "parent" := "author" ]} ]};
         Plain "author"] : list tag_decl) ≠ [] →
       res_tags resource'
       = Some (default [] (res_tags resource_post) ++ ts)%list).
Proof.
  destruct (_process_tags_in_resource resource_post (mkBuild [] ∅ ∅))
    as [e|[b' resource']] eqn:Hrun.
  - vm_compute in Hrun. discriminate.
  - exists b', resource'. split; [reflexivity|].
    exact (process_tags_in_resource_normalizes resource_post resource'
             (mkBuild [] ∅ ∅) b' Hrun).
Defined.

Lemma is_tag_setattr_resources (h : store) o l o' :
  is_tag h o' → is_tag (setattr h o "resources" (VResources l)) o'.
Proof.
  intros (name & rs & ins & outs & Hn & Hr & Hi & Ho).
  assert (is_Some (h !! o')) as Hsome by eauto using attr_of_is_Some.
  destruct (decide (o = o')) as [->|Hne].
  - exists name, l, ins, outs.
    rewrite attr_of_setattr_eq by done.
    rewrite !attr_of_setattr_ne by (right; done). done.
  - exists name, rs, ins, outs.
    rewrite !attr_of_setattr_ne by (left; done). done.
Qed.

Lemma append_resource_Ok (h : store) (tag : ref) (resource : Resource) :
  is_tag h tag →
  ∃ l,
    attr_of h tag "resources" = Some (VResources l) ∧
    append_resource tag resource h
    = Ok (setattr h tag "resources" (VResources (l ++ [rid resource])%list)).
Proof.
  intros (name & l & ins & outs & _ & Hr & _). exists l. split; [done|].
  unfold append_resource, get_resources, getattr. by rewrite Hr.
Qed.

Lemma walker_name_inj (n m : string) : walker_name n = walker_name m → n = m.
Proof. unfold walker_name. apply (inj (String.app _)). Qed.

Lemma wf_named_inj (b : Build) n m tag :
  wf_named b → tags b !! n = Some tag → tags b !! m = Some tag → n = m.
Proof.
  intros Hwf Hn Hm.
  destruct (Hwf n tag Hn) as [_ Hname1]. destruct (Hwf m tag Hm) as [_ Hname2].
  congruence.
Qed.

Lemma bind_Ok_l {A B} (x : A) (k : A → result B) : bind (Ok x) k = k x.
Proof. reflexivity. Qed.

(** One plain declaration on a registry keyed by tag name. *)
Lemma declaration_step_plain (b : Build) (new_tag_list : list tag_decl)
    (resource : Resource) (n : string) :
  wf_named b → wf_walkers b →
  ∃ b' tag,
    declaration_step (b, new_tag_list, resource) (Plain n)
    = Ok (b', (new_tag_list ++ [Plain n])%list,
          mkResource (rid resource) (meta_tags resource)
            (Some (default [] (res_tags resource) ++ [tag])%list)) ∧
    wf_named b' ∧ wf_walkers b' ∧
    tags b' = <[n := tag]> (tags b) ∧
    (∀ key x, tags b !! key = Some x → tags b' !! key = Some x) ∧
    (∀ m, tag_resources b' m
          = (tag_resources b m
             ++ if bool_decide (m = n) then [rid resource] else [])%list).
Proof.
  intros Hwf Hwalk. unfold declaration_step.
  rewrite bind_Ok_l. cbv beta iota zeta.
  destruct (tags b !! n) as [tag|] eqn:Hn.
  - destruct (Hwf n tag Hn) as [Htag Hname].
    destruct (append_resource_Ok (heap b) tag resource Htag) as (l & Hl & ->).
    rewrite !bind_Ok_l. cbn [tags heap node_methods]. unfold getitem.
    rewrite Hn, bind_Ok_l.
    eexists _, tag. split.
    { do 2 f_equal. by destruct (res_tags resource) eqn:Hres; simpl; rewrite ?Hres. }
    cbn [heap tags node_methods]. split_and!.
    + intros key x Hkey. cbn [heap tags] in *.
      destruct (Hwf key x Hkey) as [Hx Hxname]. split.
      * by apply is_tag_setattr_resources.
      * by rewrite attr_of_setattr_ne by (right; done).
    + done.
    + by rewrite insert_id.
    + done.
    + intros m. unfold tag_resources. cbn [heap tags].
      destruct (decide (m = n)) as [->|Hne].
      * rewrite bool_decide_true by done. rewrite Hn, Hl.
        by rewrite attr_of_setattr_eq by (by apply is_tag_is_Some).
      * rewrite bool_decide_false by done. rewrite (right_id [] _).
        destruct (tags b !! m) as [x|] eqn:Hm; [|done].
        rewrite attr_of_setattr_ne; [done|]. left. intros ->.
        apply Hne. by eapply wf_named_inj.
  - unfold Tag.new.
    pose proof (is_tag_new (heap b) n) as Hnew.
    destruct (append_resource_Ok _ (length (heap b)) resource Hnew)
      as (l & Hl & ->).
    assert (l = []) as ->.
    { unfold attr_of in Hl. rewrite list_lookup_middle in Hl by done.
      cbn in Hl. by injection Hl as <-. }
    rewrite !bind_Ok_l. unfold add_method. cbn [tags heap node_methods].
    unfold getitem. rewrite lookup_insert_eq, bind_Ok_l.
    eexists _, (length (heap b)). split.
    { do 2 f_equal. by destruct (res_tags resource) eqn:Hres; simpl; rewrite ?Hres. }
    cbn [heap tags node_methods].
    assert (∀ key x, tags b !! key = Some x →
              key ≠ n ∧ x ≠ length (heap b) ∧ is_Some (heap b !! x)) as Hold.
    { intros key x Hkey. destruct (Hwf key x Hkey) as [Hx _].
      pose proof (is_tag_is_Some _ _ Hx) as Hsome. split_and!; [congruence| |done].
      apply lookup_lt_is_Some in Hsome. lia. }
    split_and!.
    + intros key x Hkey. cbn [heap tags] in *.
      apply lookup_insert_Some in Hkey as [[<- <-]|[Hne Hkey]].
      * split; [by apply is_tag_setattr_resources|].
        rewrite attr_of_setattr_ne by (right; done). apply attr_of_new_name.
      * destruct (Hwf key x Hkey) as [Hx Hxname].
        destruct (Hold key x Hkey) as (_ & _ & Hsome). split.
        -- by apply is_tag_setattr_resources, is_tag_app.
        -- rewrite attr_of_setattr_ne by (right; done).
           by rewrite attr_of_app_l.
    + intros key x Hkey. cbn [heap tags node_methods] in *.
      apply lookup_insert_Some in Hkey as [[<- <-]|[Hne Hkey]].
      * apply lookup_insert_eq.
      * rewrite lookup_insert_ne; [by apply Hwalk|].
        intros Heq%walker_name_inj. done.
    + done.
    + intros key x Hkey. destruct (Hold key x Hkey) as (Hne & _ & _).
      by rewrite lookup_insert_ne.
    + intros m. unfold tag_resources. cbn [heap tags].
      destruct (decide (m = n)) as [->|Hne].
      * rewrite bool_decide_true by done. rewrite lookup_insert_eq, Hn.
        by rewrite attr_of_setattr_eq by (by apply is_tag_is_Some).
      * rewrite bool_decide_false by done. rewrite (right_id [] _).
        rewrite lookup_insert_ne by done.
        destruct (tags b !! m) as [x|] eqn:Hm; [|done].
        destruct (Hold m x Hm) as (_ & Hx & Hsome).
        rewrite attr_of_setattr_ne by (left; done).
        by rewrite attr_of_app_l.
Qed.

Lemma resource_eta (r : Resource) :
  mkResource (rid r) (meta_tags r) (res_tags r) = r.
Proof. by destruct r. Qed.

Lemma declaration_loop_plain (names : list string) (b : Build)
    (new_tag_list : list tag_decl) (resource : Resource) :
  wf_named b → wf_walkers b →
  ∃ b' ts,
    for_each declaration_step (b, new_tag_list, resource) (Plain <$> names)
    = Ok (b', (new_tag_list ++ (Plain <$> names))%list,
          mkResource (rid resource) (meta_tags resource)
            (match names with
             | [] => res_tags resource
             | _ => Some (default [] (res_tags resource) ++ ts)%list
             end)) ∧
    wf_named b' ∧ wf_walkers b' ∧
    (∀ key x, tags b !! key = Some x → tags b' !! key = Some x) ∧
    dom (tags b') = dom (tags b) ∪ list_to_set names ∧
    Forall2 (λ n tag, tags b' !! n = Some tag) names ts ∧
    (∀ m, tag_resources b' m
          = (tag_resources b m
             ++ replicate (length (filter (λ n, n = m) names)) (rid resource))%list).
Proof.
  revert b new_tag_list resource.
  induction names as [|n names IH]; intros b new_tag_list resource Hwf Hwalk.
  - exists b, []. cbn [fmap list_fmap for_each].
    rewrite resource_eta, (right_id [] _). split_and!; try done.
    + cbn [list_to_set]. apply set_eq. intros x.
      rewrite elem_of_union, elem_of_empty. tauto.
    + intros m. cbn. by rewrite (right_id [] _).
  - destruct (declaration_step_plain b new_tag_list resource n Hwf Hwalk)
      as (b1 & tag & Hstep & Hwf1 & Hwalk1 & Htags1 & Hkept1 & Hres1).
    destruct (IH b1 (new_tag_list ++ [Plain n])%list
                (mkResource (rid resource) (meta_tags resource)
                   (Some (default [] (res_tags resource) ++ [tag])%list))
                Hwf1 Hwalk1)
      as (b' & ts & Hloop & Hwf' & Hwalk' & Hkept' & Hdom' & Hts' & Hres').
    exists b', (tag :: ts). rewrite fmap_cons. cbn [for_each].
    rewrite Hstep, bind_Ok_l, Hloop. cbn [rid meta_tags res_tags].
    split_and!; try done.
    + do 2 f_equal; [by rewrite <- (assoc _)|].
      f_equal. destruct names.
      * by apply Forall2_nil_inv_l in Hts' as ->.
      * simpl. by rewrite <- app_assoc.
    + eauto.
    + rewrite Hdom', Htags1, dom_insert_L. cbn [list_to_set].
      apply set_eq. intros x. rewrite !elem_of_union. tauto.
    + constructor; [|done]. apply Hkept'. rewrite Htags1.
      apply lookup_insert_eq.
    + intros m. rewrite Hres', Hres1. cbn [rid]. rewrite <- (assoc _).
      f_equal. rewrite filter_cons.
      destruct (decide (m = n)) as [->|Hne].
      * rewrite bool_decide_true, decide_True by done. done.
      * rewrite bool_decide_false, decide_False by done. done.
Qed.

(** X17. A resource with plain tag names only, on a registry keyed by tag
    name: processing succeeds and leaves the resource's tag list as it
    was; afterwards the registry is still keyed by tag name with a walker
    bound to each tag, its keys are the old keys and the declared names,
    no entry has been replaced, and the resource list of every tag has
    gained the resource once per declaration of that tag, duplicates
    included. *)
Theorem process_tags_in_resource_plain (resource : Resource) (b : Build)
    (names : list string) :
  wf_named b → wf_walkers b →
  meta_tags resource = Some (Plain <$> names) →
  ∃ b' resource',
    _process_tags_in_resource resource b = Ok (b', resource') ∧
    rid resource' = rid resource ∧
    meta_tags resource' = meta_tags resource ∧
    wf_named b' ∧ wf_walkers b' ∧
    dom (tags b') = dom (tags b) ∪ list_to_set names ∧
    (∀ key x, tags b !! key = Some x → tags b' !! key = Some x) ∧
    (∀ m, tag_resources b' m
          = (tag_resources b m
             ++ replicate (length (filter (λ n, n = m) names)) (rid resource))%list).
Proof.
  intros Hwf Hwalk Hmeta. unfold _process_tags_in_resource. rewrite Hmeta.
  destruct (declaration_loop_plain names b [] resource Hwf Hwalk)
    as (b' & ts & Hloop & Hwf' & Hwalk' & Hkept & Hdom & _ & Hres).
  rewrite Hloop, bind_Ok_l. cbn [rid meta_tags res_tags app].
  eexists _, _. split; [done|]. cbn [rid meta_tags]. by split_and!.
Qed.

Lemma wf_walkers_empty : wf_walkers (mkBuild [] ∅ ∅).
Proof. intros n t Hn. cbn [tags] in Hn. by rewrite lookup_empty in Hn. Qed.

Lemma wf_named_empty : wf_named (mkBuild [] ∅ ∅).
Proof. intros n t Hn. cbn [tags] in Hn. by rewrite lookup_empty in Hn. Qed.

Lemma process_tags_in_resource_plain_witness :
  wf_named (mkBuild [] ∅ ∅) ∧ wf_walkers (mkBuild [] ∅ ∅) ∧
  meta_tags resource_bbc = Some (Plain <$> ["b"; "b"; "c"]) ∧
  ∃ b' resource',
    _process_tags_in_resource resource_bbc (mkBuild [] ∅ ∅)
    = Ok (b', resource') ∧
    tag_resources b' "b" = [9; 9] ∧ tag_resources b' "c" = [9] ∧
    tag_resources b' "a" = [].
Proof.
  split; [exact wf_named_empty|]. split; [exact wf_walkers_empty|].
  split; [reflexivity|].
  destruct (process_tags_in_resource_plain resource_bbc (mkBuild [] ∅ ∅)
              ["b"; "b"; "c"] wf_named_empty wf_walkers_empty eq_refl)
    as (b' & resource' & Hrun & _ & _ & _ & _ & _ & _ & Hres).
  exists b', resource'. split; [exact Hrun|].
  split; [|split].
  - exact (Hres "b").
  - exact (Hres "c").
  - exact (Hres "a").
Defined.

(** * Properties of the site build *)

Lemma plain_resource_taglist (resource : Resource) taglist :
  plain_resource resource → meta_tags resource = Some taglist →
  taglist = Plain <$> declared_names resource.
Proof.
  intros Hplain Hmeta. unfold declared_names. rewrite Hmeta.
  assert (∀ decl, decl ∈ taglist → ∃ n, decl = Plain n) as Hall
    by (intros decl; by apply Hplain).
  clear Hplain Hmeta. induction taglist as [|decl taglist IH]; [done|].
  destruct (Hall decl) as [n ->]; [apply elem_of_cons; by left|].
  cbn. f_equal. apply IH. intros d Hd. apply Hall, elem_of_cons. by right.
Qed.

(** One resource with plain declarations, or with no tag list at all. *)
Lemma process_resource_plain (resource : Resource) (b : Build) :
  wf_named b → wf_walkers b → plain_resource resource →
  ∃ b' resource',
    _process_tags_in_resource resource b = Ok (b', resource') ∧
    rid resource' = rid resource ∧
    meta_tags resource' = meta_tags resource ∧
    wf_named b' ∧ wf_walkers b' ∧
    (∀ key x, tags b !! key = Some x → tags b' !! key = Some x) ∧
    dom (tags b') = dom (tags b) ∪ list_to_set (declared_names resource) ∧
    (∀ m, tag_resources b' m
          = (tag_resources b m
             ++ replicate
                  (length (filter (λ n, n = m) (declared_names resource)))
                  (rid resource))%list).
Proof.
  intros Hwf Hwalk Hplain. unfold _process_tags_in_resource.
  destruct (meta_tags resource) as [taglist|] eqn:Hmeta.
  - rewrite (plain_resource_taglist resource taglist Hplain Hmeta).
    destruct (declaration_loop_plain (declared_names resource) b [] resource
                Hwf Hwalk)
      as (b' & ts & Hloop & Hwf' & Hwalk' & Hkept & Hdom & _ & Hres).
    rewrite Hloop, bind_Ok_l. cbn [rid meta_tags res_tags app].
    eexists _, _. split; [done|]. cbn [rid meta_tags].
    by split_and!.
  - exists b, resource. unfold declared_names. rewrite Hmeta.
    split_and!; try done.
    + cbn [list_to_set]. apply set_eq. intros x.
      rewrite elem_of_union, elem_of_empty. tauto.
    + intros m. cbn. by rewrite (right_id [] _).
Qed.

Lemma process_resources_plain (walker : list Resource) (b : Build) :
  wf_named b → wf_walkers b → Forall plain_resource walker →
  ∃ b' resources,
    process_resources walker b = Ok (b', resources) ∧
    wf_named b' ∧ wf_walkers b' ∧
    (∀ key x, tags b !! key = Some x → tags b' !! key = Some x) ∧
    dom (tags b') = dom (tags b) ∪ list_to_set (walker ≫= declared_names) ∧
    Forall2 (λ r r', rid r' = rid r ∧ meta_tags r' = meta_tags r)
      walker resources ∧
    (∀ m, tag_resources b' m
          = (tag_resources b m ++ declarations_of m walker)%list).
Proof.
  revert b. induction walker as [|resource walker IH]; intros b Hwf Hwalk Hall.
  - exists b, []. split_and!; try done.
    + cbn. apply set_eq. intros x. rewrite elem_of_union, elem_of_empty. tauto.
    + intros m. cbn. by rewrite (right_id [] _).
  - apply Forall_cons in Hall as [Hplain Hall].
    destruct (process_resource_plain resource b Hwf Hwalk Hplain)
      as (b1 & r1 & Hstep & Hrid & Hmeta & Hwf1 & Hwalk1 & Hkept1 & Hdom1 & Hres1).
    destruct (IH b1 Hwf1 Hwalk1 Hall)
      as (b' & resources & Hloop & Hwf' & Hwalk' & Hkept' & Hdom' & Hrs & Hres').
    exists b', (r1 :: resources). cbn [process_resources].
    rewrite Hstep, bind_Ok_l. cbn [fst snd]. rewrite Hloop, bind_Ok_l.
    split_and!; try done.
    + eauto.
    + rewrite Hdom', Hdom1. cbn [mbind list_bind].
      rewrite list_to_set_app_L. apply set_eq. intros x.
      rewrite !elem_of_union. tauto.
    + by constructor.
    + intros m. rewrite Hres', Hres1. unfold declarations_of.
      cbn [mbind list_bind]. by rewrite <- (assoc _).
Qed.

Lemma length_filter_eq_NoDup (m : string) (l : list string) :
  NoDup l →
  length (filter (λ n, n = m) l) = if bool_decide (m ∈ l) then 1 else 0.
Proof.
  induction 1 as [|n l Hn Hl IH]; [done|].
  rewrite filter_cons. destruct (decide (n = m)) as [->|Hne].
  - rewrite bool_decide_true by (apply elem_of_cons; by left).
    cbn [length]. rewrite IH, bool_decide_false by done. done.
  - rewrite IH. apply (f_equal (λ b : bool, if b then 1 else 0)).
    apply bool_decide_ext. rewrite elem_of_cons.
    split; [auto|]. intros [?|?]; [congruence|done].
Qed.

Lemma tagged_with_one (m : string) (resource : Resource) :
  tagged_with_all [m] resource = bool_decide (m ∈ declared_names resource).
Proof.
  unfold tagged_with_all, declared_names.
  destruct (meta_tags resource) as [taglist|].
  - cbn [forallb]. rewrite andb_true_r. apply bool_decide_ext.
    rewrite list_elem_of_omap. split.
    + intros Hin. by exists (Plain m).
    + intros (decl & Hin & Hname). destruct decl; simplify_eq/=. done.
  - rewrite bool_decide_false; [done|]. apply not_elem_of_nil.
Qed.

Lemma declarations_of_filter (m : string) (walker : list Resource) :
  Forall (λ r, NoDup (declared_names r)) walker →
  declarations_of m walker = rid <$> List.filter (tagged_with_all [m]) walker.
Proof.
  induction 1 as [|r walker Hr Hall IH]; [done|].
  unfold declarations_of in *. cbn [mbind list_bind List.filter].
  rewrite IH, tagged_with_one, length_filter_eq_NoDup by done.
  by case_bool_decide.
Qed.

(** X18. Tagging an enumeration of resources that declare plain tag names
    only, starting from the empty registry, succeeds.  The registry is then
    keyed by tag name and its keys are exactly the declared names; the tag
    lists of the resources are unchanged; every tag lists the resources
    that declare it in enumeration order, once per declaration; and when
    no resource declares a tag twice, the resources listed on a tag are
    those the query for that tag finds. *)
Theorem process_resources_registry (walker : list Resource) :
  Forall plain_resource walker →
  ∃ b resources,
    process_resources walker (mkBuild [] ∅ ∅) = Ok (b, resources) ∧
    wf_named b ∧ wf_walkers b ∧
    dom (tags b) = list_to_set (walker ≫= declared_names) ∧
    Forall2 (λ r r', rid r' = rid r ∧ meta_tags r' = meta_tags r)
      walker resources ∧
    (∀ m, tag_resources b m = declarations_of m walker) ∧
    (Forall (λ r, NoDup (declared_names r)) walker →
     ∀ m, tag_resources b m
          = rid <$> List.filter (tagged_with_all [m]) walker).
Proof.
  intros Hplain.
  destruct (process_resources_plain walker (mkBuild [] ∅ ∅)
              wf_named_empty wf_walkers_empty Hplain)
    as (b & resources & Hrun & Hwf & Hwalk & _ & Hdom & Hrs & Hres).
  exists b, resources. split_and!; try done.
  - rewrite Hdom. cbn [tags]. rewrite dom_empty_L. apply set_eq. intros x.
    rewrite elem_of_union, elem_of_empty. tauto.
  - intros Hnodup m. rewrite Hres. by apply declarations_of_filter.
Qed.

Lemma plain_resource_names (resource : Resource) (names : list string) :
  meta_tags resource = Some (Plain <$> names) → plain_resource resource.
Proof.
  intros Hmeta taglist decl Htaglist Hin. rewrite Hmeta in Htaglist.
  injection Htaglist as <-.
  apply list_elem_of_fmap in Hin as (n & -> & _). eauto.
Qed.

Lemma plain_three :
  Forall plain_resource [resource_python_tutorial; resource_python; resource_go].
Proof.
  repeat constructor.
  - by apply (plain_resource_names _ ["python"; "tutorial"]).
  - by apply (plain_resource_names _ ["python"]).
  - by apply (plain_resource_names _ ["go"]).
Qed.

Lemma process_resources_registry_witness :
  Forall plain_resource [resource_python_tutorial; resource_python; resource_go] ∧
  ∃ b resources,
    process_resources [resource_python_tutorial; resource_python; resource_go]
      (mkBuild [] ∅ ∅) = Ok (b, resources) ∧
    dom (tags b) = list_to_set ["python"; "tutorial"; "python"; "go"] ∧
    tag_resources b "python" = [1; 2] ∧ tag_resources b "go" = [3].
Proof.
  split; [exact plain_three|].
  destruct (process_resources_registry _ plain_three)
    as (b & resources & Hrun & _ & _ & Hdom & _ & Hres & _).
  exists b, resources. split; [exact Hrun|]. split; [exact Hdom|].
  split; [exact (Hres "python")|exact (Hres "go")].
Defined.

Lemma process_tag_metadata_protected (site : Site) (tags : gmap string ref)
    (h : store) r k :
  k = "name" ∨ k = "resources" →
  attr_of (_process_tag_metadata site tags h) r k = attr_of h r k.
Proof.
  intros Hk. unfold _process_tag_metadata. cbv zeta.
  destruct (metadata_fold_attr tags (map_to_list (config_tag_meta site)) h r k)
    as [?|(? & ? & ? & _ & _ & ? & ? & _)]; [done|]. by destruct Hk.
Qed.

Lemma archive_step_keeps (folder_name : string → string)
    (source target extension template meta_text : string)
    (w : World) (item : string * ref) p :
  is_Some (files w !! p) →
  is_Some (files (archive_step folder_name source target extension template
                    meta_text w item) !! p).
Proof.
  intros Hp. rewrite archive_step_files. by case_decide.
Qed.

Lemma archive_loop_keeps (folder_name : string → string)
    (source target extension template meta_text : string)
    (l : list (string * ref)) (w : World) p :
  is_Some (files w !! p) →
  is_Some (files (foldl (archive_step folder_name source target extension
                           template meta_text) w l) !! p).
Proof.
  revert w. induction l as [|item l IH]; intros w Hp; [done|].
  cbn [foldl]. by apply IH, archive_step_keeps.
Qed.

Lemma create_tag_archive_keeps
    (yaml_dump : gmap string yaml → string) (folder_name : string → string)
    (source_folder : string) (tags : gmap string ref)
    (config : ArchiveConfig) (w : World) p :
  is_Some (files w !! p) →
  is_Some (files (_create_tag_archive yaml_dump folder_name source_folder tags
                    config w).1 !! p).
Proof.
  intros Hp. destruct (a_template config) as [template|] eqn:Htemplate.
  - rewrite (create_tag_archive_Some _ _ _ _ _ _ _ Htemplate). cbn [fst].
    apply archive_loop_keeps. by case_bool_decide.
  - by rewrite (create_tag_archive_None _ _ _ _ _ _ Htemplate).
Qed.

Lemma create_tag_archive_written
    (yaml_dump : gmap string yaml → string) (folder_name : string → string)
    (source_folder : string) (tags : gmap string ref)
    (config : ArchiveConfig) (w : World) tagname :
  is_Some (a_template config) → is_Some (tags !! tagname) →
  is_Some (files (_create_tag_archive yaml_dump folder_name source_folder tags
                    config w).1
           !! archive_path
                (child source_folder (default "tags" (a_target config)))
                tagname (default "html" (a_extension config))).
Proof.
  intros [template Htemplate] [tag Htag].
  rewrite (create_tag_archive_Some _ _ _ _ _ _ _ Htemplate). cbn [fst].
  rewrite archive_loop_written; [by eexists|].
  apply list_elem_of_fmap. exists (tagname, tag). split; [done|].
  by apply elem_of_map_to_list.
Qed.

Lemma archives_loop_keeps
    (yaml_dump : gmap string yaml → string) (folder_name : string → string)
    (source_folder : string) (tags : gmap string ref)
    (configs : list (string * ArchiveConfig)) (w : World) p :
  is_Some (files w !! p) →
  is_Some (files (archives_loop yaml_dump folder_name source_folder tags
                    configs w).1 !! p).
Proof.
  revert w. induction configs as [|[name config] configs IH]; intros w Hp;
    [done|].
  cbn [archives_loop].
  pose proof (create_tag_archive_keeps yaml_dump folder_name source_folder tags
                config w p Hp) as Hkeep.
  destruct (_create_tag_archive yaml_dump folder_name source_folder tags
              config w) as [w1 [e|]]; cbn [fst] in *; [done|].
  by apply IH.
Qed.

Lemma archives_loop_written
    (yaml_dump : gmap string yaml → string) (folder_name : string → string)
    (source_folder : string) (tags : gmap string ref)
    (configs : list (string * ArchiveConfig)) (w : World) name config tagname :
  Forall (λ item, is_Some (a_template item.2)) configs →
  (name, config) ∈ configs → is_Some (tags !! tagname) →
  is_Some (files (archives_loop yaml_dump folder_name source_folder tags
                    configs w).1
           !! archive_path
                (child source_folder (default "tags" (a_target config)))
                tagname (default "html" (a_extension config))).
Proof.
  intros Hall Hin Htag. revert w.
  induction configs as [|[name' config'] configs IH]; intros w.
  - by apply elem_of_nil in Hin.
  - apply Forall_cons in Hall as [Htemplate Hall]. cbn [snd] in Htemplate.
    cbn [archives_loop].
    pose proof (create_tag_archive_written yaml_dump folder_name source_folder
                  tags config' w tagname Htemplate Htag) as Hwritten.
    destruct Htemplate as [template Htemplate].
    rewrite (create_tag_archive_Some _ _ _ _ _ _ _ Htemplate) in *.
    cbn [fst] in Hwritten.
    apply elem_of_cons in Hin as [[= <- <-]|Hin].
    + by apply archives_loop_keeps.
    + by apply IH.
Qed.

Lemma begin_site_tagged
    (yaml_dump : gmap string yaml → string) (folder_name : string → string)
    (source_folder : string) (site : Site) (w : World) b resources :
  (walker <- get_tagger_sort_method site;;
   process_resources walker (mkBuild [] ∅ ∅)) = Ok (b, resources) →
  begin_site yaml_dump folder_name source_folder site w
  = match _generate_archives yaml_dump folder_name source_folder (tags b)
            site w with
    | (w, Some e) => (w, Raise e)
    | (w, None) =>
        (w, Ok (mkBuild (_process_tag_metadata site (tags b) (heap b))
                  (tags b) (node_methods b), resources))
    end.
Proof. intros Hrun. unfold begin_site. by rewrite Hrun. Qed.

Lemma begin_site_raised
    (yaml_dump : gmap string yaml → string) (folder_name : string → string)
    (source_folder : string) (site : Site) (w : World) e :
  (walker <- get_tagger_sort_method site;;
   process_resources walker (mkBuild [] ∅ ∅)) = Raise e →
  begin_site yaml_dump folder_name source_folder site w = (w, Raise e).
Proof. intros Hrun. unfold begin_site. by rewrite Hrun. Qed.

(** X19. The whole of [begin_site] on a site whose enumeration resolves,
    whose resources declare plain tag names only and whose archives all
    have a template: the call succeeds; the published registry has exactly
    the declared tag names as keys, each key naming a tag of that name
    with its own walker on [Node]; each tag lists the resources declaring
    it in enumeration order; the tag lists of the resources are unchanged;
    and every archive has a file for every tag. *)
Theorem begin_site_plain
    (yaml_dump : gmap string yaml → string) (folder_name : string → string)
    (source_folder : string) (site : Site) (w : World)
    (walker : list Resource) :
  get_tagger_sort_method site = Ok walker →
  Forall plain_resource walker →
  (∀ archive_config name c,
     tagger (config site) ≫= archives = Some archive_config →
     archive_config !! name = Some c → is_Some (a_template c)) →
  ∃ w' b resources,
    begin_site yaml_dump folder_name source_folder site w
    = (w', Ok (b, resources)) ∧
    dom (tags b) = list_to_set (walker ≫= declared_names) ∧
    (∀ n tag, tags b !! n = Some tag →
       Tag.__str__ (heap b) tag = Ok n ∧
       node_methods b !! walker_name n = Some tag) ∧
    (∀ m, tag_resources b m = declarations_of m walker) ∧
    Forall2 (λ r r', rid r' = rid r ∧ meta_tags r' = meta_tags r)
      walker resources ∧
    (∀ archive_config name c n,
       tagger (config site) ≫= archives = Some archive_config →
       archive_config !! name = Some c → n ∈ dom (tags b) →
       is_Some (files w'
                !! archive_path
                     (child source_folder (default "tags" (a_target c)))
                     n (default "html" (a_extension c)))).
Proof.
  intros Hwalker Hplain Htemplates.
  destruct (process_resources_plain walker (mkBuild [] ∅ ∅)
              wf_named_empty wf_walkers_empty Hplain)
    as (b & resources & Hrun & Hwf & Hwalk & _ & Hdom & Hrs & Hres).
  rewrite (begin_site_tagged _ _ _ _ _ b resources)
    by (by rewrite Hwalker, bind_Ok_l).
  set (h' := _process_tag_metadata site (tags b) (heap b)).
  assert ((_generate_archives yaml_dump folder_name source_folder (tags b)
             site w).2 = None) as Hnone.
  { unfold _generate_archives.
    destruct (tagger (config site) ≫= archives) as [ac|] eqn:Hac; [|done].
    rewrite archives_loop_outcome, bool_decide_true; [done|].
    apply Forall_forall. intros [name c] Hin%elem_of_map_to_list.
    by apply (Htemplates ac name c). }
  destruct (_generate_archives yaml_dump folder_name source_folder (tags b)
              site w) as [w' o] eqn:Hgen.
  cbn [snd] in Hnone. subst o.
  exists w', (mkBuild h' (tags b) (node_methods b)), resources.
  split; [done|]. cbn [tags heap node_methods]. split_and!.
  - rewrite Hdom. cbn [tags]. rewrite dom_empty_L. apply set_eq. intros x.
    rewrite elem_of_union, elem_of_empty. tauto.
  - intros n tag Hn. destruct (Hwf n tag Hn) as [_ Hname]. split.
    + unfold Tag.__str__, getattr. subst h'.
      rewrite process_tag_metadata_protected by (by left). by rewrite Hname.
    + by apply Hwalk.
  - intros m. rewrite <- (Hres m) at 1. unfold tag_resources.
    cbn [tags heap]. destruct (tags b !! m); [|done]. subst h'.
    by rewrite process_tag_metadata_protected by (by right).
  - done.
  - intros ac name c n Hac Hc Hn. unfold _generate_archives in Hgen.
    rewrite Hac in Hgen.
    pose proof (archives_loop_written yaml_dump folder_name source_folder
                  (tags b) (map_to_list ac) w name c n) as Hwritten.
    rewrite Hgen in Hwritten. apply Hwritten.
    + apply Forall_forall. intros [name' c'] Hin%elem_of_map_to_list.
      by apply (Htemplates ac name' c').
    + by apply elem_of_map_to_list.
    + by apply elem_of_dom.
Qed.

Lemma begin_site_plain_witness :
  get_tagger_sort_method site_three
  = Ok [resource_python_tutorial; resource_python; resource_go] ∧
  Forall plain_resource [resource_python_tutorial; resource_python; resource_go] ∧
  ∃ w' b resources,
    begin_site (λ _, "") id "content" site_three world_stale
    = (w', Ok (b, resources)) ∧
    dom (tags b) = list_to_set ["python"; "tutorial"; "python"; "go"] ∧
    tag_resources b "python" = [1; 2] ∧
    is_Some (files w' !! "content/tags/tutorial.html").
Proof.
  assert (get_tagger_sort_method site_three
          = Ok [resource_python_tutorial; resource_python; resource_go])
    as Hwalker by (vm_compute; reflexivity).
  assert (∀ archive_config name c,
            tagger (config site_three) ≫= archives = Some archive_config →
            archive_config !! name = Some c → is_Some (a_template c))
    as Htemplates.
  { intros ac name c [= <-] [_ <-]%lookup_singleton_Some. by eexists. }
  split; [exact Hwalker|]. split; [exact plain_three|].
  destruct (begin_site_plain (λ _, "") id "content" site_three world_stale _
              Hwalker plain_three Htemplates)
    as (w' & b & resources & Hrun & Hdom & _ & Hres & _ & Hfiles).
  exists w', b, resources. split; [exact Hrun|]. split; [exact Hdom|].
  split; [exact (Hres "python")|].
  apply (Hfiles {[ "blog" := archive_blog ]} "blog" archive_blog "tutorial").
  - reflexivity.
  - apply lookup_singleton_eq.
  - rewrite Hdom. apply elem_of_list_to_set.
    apply elem_of_cons. right. apply elem_of_cons. by left.
Defined.

Lemma parse_tag_relations_many (d : gmap string relations_decl) :
  1 < size d →
  ∃ tagname relations,
    d !! tagname = Some relations ∧
    _parse_tag_relations d
    = Raise (TemplateException (InvalidDefinitionOfTag tagname relations)).
Proof.
  intros Hsize. destruct (popitem_Some d) as (k & v & Hk & Hpop); [lia|].
  exists k, v. split; [done|].
  unfold _parse_tag_relations. rewrite Hpop, bind_Ok_l.
  rewrite bool_decide_true; [done|].
  rewrite map_size_delete, Hk. simpl. lia.
Qed.

Lemma for_each_app {S A} (body : S → A → result S) (s : S) (l1 l2 : list A) :
  for_each body s (l1 ++ l2)
  = (s' <- for_each body s l1;; for_each body s' l2).
Proof.
  revert s. induction l1 as [|x l1 IH]; intros s; [done|].
  cbn [app for_each]. destruct (body s x) as [e|s1]; [done|].
  cbn [bind]. apply IH.
Qed.

Lemma process_tags_in_resource_malformed (resource : Resource) (b : Build)
    (names : list string) (d : gmap string relations_decl)
    (rest : list tag_decl) tagname relations :
  wf_named b → wf_walkers b →
  meta_tags resource = Some ((Plain <$> names) ++ Structured d :: rest)%list →
  _parse_tag_relations d
  = Raise (TemplateException (InvalidDefinitionOfTag tagname relations)) →
  _process_tags_in_resource resource b
  = Raise (TemplateException (InvalidDefinitionOfTag tagname relations)).
Proof.
  intros Hwf Hwalk Hmeta Hparse. unfold _process_tags_in_resource.
  rewrite Hmeta, for_each_app.
  destruct (declaration_loop_plain names b [] resource Hwf Hwalk)
    as (b' & ts & -> & _).
  rewrite bind_Ok_l. cbn [for_each]. unfold declaration_step at 1.
  by rewrite Hparse.
Qed.

Lemma process_resources_raise (before after : list Resource)
    (resource : Resource) (b : Build) (e : exn) :
  wf_named b → wf_walkers b → Forall plain_resource before →
  (∀ b1, wf_named b1 → wf_walkers b1 →
         _process_tags_in_resource resource b1 = Raise e) →
  process_resources (before ++ resource :: after) b = Raise e.
Proof.
  intros Hwf Hwalk Hplain Hraise. revert b Hwf Hwalk.
  induction Hplain as [|r before Hr Hplain IH]; intros b Hwf Hwalk.
  - cbn [app process_resources]. by rewrite Hraise.
  - cbn [app process_resources].
    destruct (process_resource_plain r b Hwf Hwalk Hr)
      as (b1 & r1 & -> & _ & _ & Hwf1 & Hwalk1 & _).
    rewrite bind_Ok_l. cbn [fst]. by rewrite IH.
Qed.

(** X20. One declaration with more than one key aborts the whole of
    [begin_site]: when the resources before it and the declarations before
    it in its resource are plain, the call ends in the tag-definition
    exception for an entry of that declaration, and no archive file has
    been written, whatever follows in the enumeration. *)
Theorem begin_site_malformed
    (yaml_dump : gmap string yaml → string) (folder_name : string → string)
    (source_folder : string) (site : Site) (w : World)
    (before after : list Resource) (resource : Resource)
    (names : list string) (d : gmap string relations_decl)
    (rest : list tag_decl) :
  get_tagger_sort_method site = Ok (before ++ resource :: after)%list →
  Forall plain_resource before →
  meta_tags resource = Some ((Plain <$> names) ++ Structured d :: rest)%list →
  1 < size d →
  ∃ tagname relations,
    d !! tagname = Some relations ∧
    begin_site yaml_dump folder_name source_folder site w
    = (w, Raise (TemplateException (InvalidDefinitionOfTag tagname relations))).
Proof.
  intros Hwalker Hplain Hmeta Hsize.
  destruct (parse_tag_relations_many d Hsize) as (k & v & Hk & Hparse).
  exists k, v. split; [done|]. apply begin_site_raised.
  rewrite Hwalker, bind_Ok_l.
  apply process_resources_raise;
    [exact wf_named_empty|exact wf_walkers_empty|done|].
  intros b1 Hwf1 Hwalk1.
  by apply (process_tags_in_resource_malformed resource b1 names d rest).
Qed.

Lemma begin_site_malformed_witness :
  get_tagger_sort_method site_malformed
  = Ok ([resource_python_tutorial] ++ resource_two_keys :: [resource_go])%list ∧
  Forall plain_resource [resource_python_tutorial] ∧
  meta_tags resource_two_keys
  = Some ((Plain <$> ["python"]) ++ Structured decl_two_keys :: [])%list ∧
  1 < size decl_two_keys ∧
  ∃ tagname relations,
    decl_two_keys !! tagname = Some relations ∧
    begin_site (λ _, "") id "content" site_malformed world_stale
    = (world_stale,
       Raise (TemplateException (InvalidDefinitionOfTag tagname relations))).
Proof.
  assert (get_tagger_sort_method site_malformed
          = Ok ([resource_python_tutorial]
                ++ resource_two_keys :: [resource_go])%list) as Hwalker
    by (vm_compute; reflexivity).
  assert (Forall plain_resource [resource_python_tutorial]) as Hplain.
  { repeat constructor. by apply (plain_resource_names _ ["python"; "tutorial"]). }
  assert (1 < size decl_two_keys) as Hsize by (vm_compute; lia).
  split; [exact Hwalker|]. split; [exact Hplain|]. split; [reflexivity|].
  split; [exact Hsize|].
  exact (begin_site_malformed (λ _, "") id "content" site_malformed world_stale
           [resource_python_tutorial] [resource_go] resource_two_keys
           ["python"] decl_two_keys [] Hwalker Hplain eq_refl Hsize).
Defined.

Lemma begin_site_plain_result
    (yaml_dump : gmap string yaml → string) (folder_name : string → string)
    (source_folder : string) (site : Site) (w : World)
    (walker : list Resource) b resources :
  get_tagger_sort_method site = Ok walker →
  process_resources walker (mkBuild [] ∅ ∅) = Ok (b, resources) →
  begin_site yaml_dump folder_name source_folder site w
  = ((_generate_archives yaml_dump folder_name source_folder (tags b) site w).1,
     match (_generate_archives yaml_dump folder_name source_folder (tags b)
              site w).2 with
     | Some e => Raise e
     | None =>
         Ok (mkBuild (_process_tag_metadata site (tags b) (heap b))
               (tags b) (node_methods b), resources)
     end).
Proof.
  intros Hwalker Hrun.
  rewrite (begin_site_tagged _ _ _ _ _ b resources)
    by (by rewrite Hwalker, bind_Ok_l).
  by destruct (_generate_archives _ _ _ _ _ _) as [w' [e|]].
Qed.

(** X21. The two other ways [begin_site] ends in an exception.  When the
    walker lookup fails, the call ends in that exception and nothing has
    been written.  When the tagging succeeds but some archive has no
    template, the call ends in the no-template exception. *)
Theorem begin_site_raises
    (yaml_dump : gmap string yaml → string) (folder_name : string → string)
    (source_folder : string) (site : Site) (w : World) :
  (∀ e, get_tagger_sort_method site = Raise e →
     begin_site yaml_dump folder_name source_folder site w
     = (w, Raise (NameError "self"))) ∧
  (∀ walker archive_config name c,
     get_tagger_sort_method site = Ok walker →
     Forall plain_resource walker →
     tagger (config site) ≫= archives = Some archive_config →
     archive_config !! name = Some c → a_template c = None →
     (begin_site yaml_dump folder_name source_folder site w).2
     = Raise (TemplateException NoTemplateSpecified)).
Proof.
  split.
  - intros e He. pose proof (get_tagger_sort_method_Raise site e He) as ->.
    apply begin_site_raised. by rewrite He.
  - intros walker ac name c Hwalker Hplain Hac Hc Hnone.
    destruct (process_resources_plain walker (mkBuild [] ∅ ∅)
                wf_named_empty wf_walkers_empty Hplain)
      as (b & resources & Hrun & _).
    rewrite (begin_site_plain_result _ _ _ _ _ _ _ _ Hwalker Hrun). cbn [snd].
    unfold _generate_archives. rewrite Hac, archives_loop_outcome.
    rewrite bool_decide_false; [done|]. intros Hall.
    rewrite Forall_forall in Hall. specialize (Hall (name, c)).
    cbn [snd] in Hall. rewrite Hnone in Hall.
    destruct Hall as [? ?]; [|done]. by apply elem_of_map_to_list.
Qed.

Lemma begin_site_raises_witness :
  get_tagger_sort_method site_missing_sorter = Raise (NameError "self") ∧
  begin_site (λ _, "") id "content" site_missing_sorter world_stale
  = (world_stale, Raise (NameError "self")).
Proof.
  assert (get_tagger_sort_method site_missing_sorter = Raise (NameError "self"))
    as H by (vm_compute; reflexivity).
  split; [exact H|].
  exact (proj1 (begin_site_raises (λ _, "") id "content" site_missing_sorter
                  world_stale) _ H).
Defined.

Lemma filter_tagged_Forall2 (names : list string) (walker resources : list Resource) :
  Forall2 (λ r r', rid r' = rid r ∧ meta_tags r' = meta_tags r) walker resources →
  rid <$> List.filter (tagged_with_all names) resources
  = rid <$> List.filter (tagged_with_all names) walker.
Proof.
  induction 1 as [|r r' walker resources [Hrid Hmeta] Hall IH]; [done|].
  cbn [List.filter].
  assert (tagged_with_all names r' = tagged_with_all names r) as ->
    by (unfold tagged_with_all; by rewrite Hmeta).
  destruct (tagged_with_all names r); [|done].
  rewrite !fmap_cons. by rewrite IH, Hrid.
Qed.

(** X22. The walker of a tag and the resource list of a tag agree.  After
    [begin_site] on a site whose resources declare plain tag names only,
    none of them twice, calling the walker of a registered tag whose name
    has no [+], on the enumeration of the processed resources, yields the
    resources tagged with that name, and these are, in the same order, the
    resources listed on the tag. *)
Theorem begin_site_walker_resources
    (yaml_dump : gmap string yaml → string) (folder_name : string → string)
    (source_folder : string) (site : Site) (w : World)
    (walker : list Resource) :
  get_tagger_sort_method site = Ok walker →
  Forall plain_resource walker →
  Forall (λ r, NoDup (declared_names r)) walker →
  (∀ archive_config name c,
     tagger (config site) ≫= archives = Some archive_config →
     archive_config !! name = Some c → is_Some (a_template c)) →
  ∃ w' b resources,
    begin_site yaml_dump folder_name source_folder site w
    = (w', Ok (b, resources)) ∧
    ∀ n site',
      n ∈ dom (tags b) → occurs plus n = false →
      get_tagger_sort_method site' = Ok resources →
      call_node_method b site' (walker_name n)
      = Ok (List.filter (tagged_with_all [n]) resources) ∧
      rid <$> List.filter (tagged_with_all [n]) resources = tag_resources b n.
Proof.
  intros Hwalker Hplain Hnodup Htemplates.
  destruct (process_resources_plain walker (mkBuild [] ∅ ∅)
              wf_named_empty wf_walkers_empty Hplain)
    as (b & resources & Hrun & Hwf & Hwalk & _ & Hdom & Hrs & Hres).
  rewrite (begin_site_plain_result _ _ _ _ _ _ _ _ Hwalker Hrun).
  assert ((_generate_archives yaml_dump folder_name source_folder (tags b)
             site w).2 = None) as ->.
  { unfold _generate_archives.
    destruct (tagger (config site) ≫= archives) as [ac|] eqn:Hac; [|done].
    rewrite archives_loop_outcome, bool_decide_true; [done|].
    apply Forall_forall. intros [name c] Hin%elem_of_map_to_list.
    by apply (Htemplates ac name c). }
  eexists _, _, _. split; [done|]. cbn [tags heap node_methods].
  intros n site' [tag Hn]%elem_of_dom Hplus Hsite'.
  destruct (Hwf n tag Hn) as [_ Hname]. split.
  - unfold call_node_method. cbn [node_methods heap].
    rewrite (Hwalk n tag Hn). unfold Tag.__str__, getattr.
    rewrite process_tag_metadata_protected by (by left).
    rewrite Hname, !bind_Ok_l. unfold walk_resources_tagged_with.
    rewrite Hsite', bind_Ok_l, walk_loop_filter.
    by rewrite split_without_sep.
  - rewrite (filter_tagged_Forall2 [n] walker resources Hrs).
    rewrite <- declarations_of_filter by done.
    unfold tag_resources. cbn [tags heap]. rewrite Hn.
    rewrite process_tag_metadata_protected by (by right).
    specialize (Hres n). unfold tag_resources in Hres.
    rewrite Hn in Hres. cbn [tags] in Hres.
    rewrite lookup_empty in Hres. by rewrite Hres.
Qed.

Lemma nodup_three :
  Forall (λ r, NoDup (declared_names r))
    [resource_python_tutorial; resource_python; resource_go].
Proof.
  repeat constructor; cbn; rewrite ?elem_of_cons, ?elem_of_nil; intros H;
    repeat destruct H as [H|H]; done.
Qed.

Lemma begin_site_walker_resources_witness :
  get_tagger_sort_method site_three
  = Ok [resource_python_tutorial; resource_python; resource_go] ∧
  Forall plain_resource [resource_python_tutorial; resource_python; resource_go] ∧
  Forall (λ r, NoDup (declared_names r))
    [resource_python_tutorial; resource_python; resource_go] ∧
  ∃ w' b resources,
    begin_site (λ _, "") id "content" site_three world_stale
    = (w', Ok (b, resources)) ∧
    ∀ n site',
      n ∈ dom (tags b) → occurs plus n = false →
      get_tagger_sort_method site' = Ok resources →
      call_node_method b site' (walker_name n)
      = Ok (List.filter (tagged_with_all [n]) resources) ∧
      rid <$> List.filter (tagged_with_all [n]) resources = tag_resources b n.
Proof.
  assert (get_tagger_sort_method site_three
          = Ok [resource_python_tutorial; resource_python; resource_go])
    as Hwalker by (vm_compute; reflexivity).
  assert (∀ archive_config name c,
            tagger (config site_three) ≫= archives = Some archive_config →
            archive_config !! name = Some c → is_Some (a_template c))
    as Htemplates.
  { intros ac name c [= <-] [_ <-]%lookup_singleton_Some. by eexists. }
  split; [exact Hwalker|]. split; [exact plain_three|].
  split; [exact nodup_three|].
  exact (begin_site_walker_resources (λ _, "") id "content" site_three
           world_stale _ Hwalker plain_three nodup_three Htemplates).
Defined.
